(** * openllm-prompt-mender: trainset store and judge metrics

    A shallow embedding of

    - [utils/data_utils.py]: [save_trainset], [load_trainset];
    - [apps/search_assistant.py] and [apps/audio_assistant.py]:
      the two [llm_judge_metric] functions and the signatures they read;
    - of [apps/search_assistant.py] also [GoogleRAg.forward],
      [build_trainset], [load_queries] and the lines of the script that
      get the trainset, and of [apps/audio_assistant.py] also [main]
      and [dump_prompt],

    together with the parts of the Python runtime these functions call:
    [json.dumps] / [json.loads], text files, and [dspy.Example].

    Conventions.
    - A Python [str] is a Rocq [string]; a character beyond ASCII is the
      sequence of its UTF-8 bytes, and a lone surrogate, which a [str] can
      hold and UTF-8 cannot encode, is the three bytes that the scheme of
      UTF-8 gives its code.  The files are opened with [encoding='utf-8']
      and [json.dumps] runs with [ensure_ascii=False], so the bytes of a
      text that can be encoded pass through both directions unchanged; an
      offset in a text counts characters, as Python counts them.
    - Exceptions are values of [exn]; a call that can raise returns a
      [result].
    - A [float] stored in a trainset record is carried as the text that JSON
      uses for it ([float.__repr__], or [NaN], [Infinity], [-Infinity]);
      the judge's scores, on which the metrics compute, are binary64
      floats ([PrimFloat.float]).
    - A line feed is written to a file as it is (the convention of POSIX
      systems).
    - The limits of the interpreter (depth of recursion, number of digits
      of an [int] in a text) are not part of the embedding. *)

From Stdlib Require Import ZArith NArith String Ascii List PrimFloat Lia.
From Stdlib Require Import SpecFloat FloatOps FloatAxioms.
From Stdlib Require Import Decimal DecimalString DecimalZ DecimalPos DecimalFacts.
From stdpp Require Import gmap strings list.

#[local] Open Scope string_scope.
#[local] Arguments String.append !_ _ : simpl nomatch.

(** ** Characters the code and the JSON grammar name *)

Definition dquote : ascii := "034"%char.
Definition backslash : ascii := "092"%char.
Definition LF : ascii := "010"%char.
Definition CR : ascii := "013"%char.
Definition TAB : ascii := "009"%char.
Definition BS : ascii := "008"%char.
Definition FF : ascii := "012"%char.

(** ** Exceptions and results *)

Inductive exn : Type :=
| FileNotFoundError (path : string)
| PermissionError (path : string)
| NotADirectoryError (path : string)
| IsADirectoryError (path : string)
| OSError (errno : Z) (path : string)
| UnicodeEncodeError (object : string)
| JSONDecodeError (msg : string) (doc : string) (pos : nat)
| RecursionError
| TypeError (msg : string)
| ValueError (msg : string)
| OverflowError (msg : string)
| AttributeError (name : string)
| JudgeError (msg : string).

Inductive result (A : Type) : Type :=
| Ok (a : A)
| Raise (e : exn).
Arguments Ok {A} a.
Arguments Raise {A} e.

Definition rbind {A B} (r : result A) (k : A -> result B) : result B :=
  match r with
  | Ok a => k a
  | Raise e => Raise e
  end.

(** ** Python values that JSON can carry *)

#[warnings="-register-all"]
Inductive pyval : Type :=
| PNone
| PBool (b : bool)
| PInt (n : Z)
| PFloat (lit : string)
| PStr (s : string)
| PList (items : list pyval)
| PDict (pairs : list (string * pyval)).

(** A [dict] keeps its keys in insertion order; assigning to a key that is
    present replaces the value in place. *)
Fixpoint dict_set {V : Type} (k : string) (v : V) (d : list (string * V))
  : list (string * V) :=
  match d with
  | [] => [(k, v)]
  | (k', v') :: d' =>
      if String.eqb k k' then (k', v) :: d' else (k', v') :: dict_set k v d'
  end.

Fixpoint dict_get {V : Type} (k : string) (d : list (string * V)) : option V :=
  match d with
  | [] => None
  | (k', v') :: d' => if String.eqb k k' then Some v' else dict_get k d'
  end.

Fixpoint dict_del {V : Type} (k : string) (d : list (string * V))
  : list (string * V) :=
  match d with
  | [] => []
  | (k', v') :: d' =>
      if String.eqb k k' then d' else (k', v') :: dict_del k d'
  end.

(** [d.update(kw)] *)
Fixpoint dict_update {V : Type} (d kw : list (string * V)) : list (string * V) :=
  match kw with
  | [] => d
  | (k, v) :: kw' => dict_update (dict_set k v d) kw'
  end.

Definition dict_keys {V : Type} (d : list (string * V)) : list string :=
  map fst d.

(** ** [json.dumps(obj, ensure_ascii=False)] *)

Definition hex_digit (n : N) : ascii :=
  if (n <? 10)%N then ascii_of_N (48 + n) else ascii_of_N (87 + n).

(** [ESCAPE_DCT]: the quote, the backslash and the control characters. *)
Definition escape_char (c : ascii) : string :=
  if Ascii.eqb c dquote then String backslash (String dquote "")
  else if Ascii.eqb c backslash then String backslash (String backslash "")
  else if Ascii.eqb c LF then String backslash "n"
  else if Ascii.eqb c CR then String backslash "r"
  else if Ascii.eqb c TAB then String backslash "t"
  else if Ascii.eqb c BS then String backslash "b"
  else if Ascii.eqb c FF then String backslash "f"
  else if (N_of_ascii c <? 32)%N then
    String backslash
      (String "u" (String "0" (String "0"
        (String (hex_digit (N_of_ascii c / 16))
          (String (hex_digit (N_of_ascii c mod 16)) "")))))
  else String c "".

Fixpoint escape (s : string) : string :=
  match s with
  | "" => ""
  | String c r => escape_char c ++ escape r
  end.

Definition py_encode_basestring (s : string) : string :=
  String dquote (escape s ++ String dquote "").

(** [int.__repr__] *)
Definition int_repr (n : Z) : string := NilEmpty.string_of_int (Z.to_int n).

Fixpoint json_dumps (v : pyval) : string :=
  match v with
  | PNone => "null"
  | PBool true => "true"
  | PBool false => "false"
  | PInt n => int_repr n
  | PFloat lit => lit
  | PStr s => py_encode_basestring s
  | PList items => "[" ++ String.concat ", " (map json_dumps items) ++ "]"
  | PDict pairs =>
      "{" ++ String.concat ", "
               (map (fun kv => py_encode_basestring (fst kv) ++ ": "
                               ++ json_dumps (snd kv)) pairs)
          ++ "}"
  end.

(** ** [json.loads(s)] *)

(** The scanner reports an error with the suffix of the document at which
    it stopped; [json_loads] turns the suffix into a character offset. *)
Inductive jres (A : Type) : Type :=
| JOk (a : A)
| JErr (msg : string) (at_ : string)
| JDepth.
Arguments JOk {A} a.
Arguments JErr {A} msg at_.
Arguments JDepth {A}.

Definition jbind {A B} (r : jres A) (k : A -> jres B) : jres B :=
  match r with
  | JOk a => k a
  | JErr m s => JErr m s
  | JDepth => JDepth
  end.

Definition is_ws (c : ascii) : bool :=
  Ascii.eqb c " " || Ascii.eqb c TAB || Ascii.eqb c LF || Ascii.eqb c CR.

Fixpoint skip_ws (s : string) : string :=
  match s with
  | String c r => if is_ws c then skip_ws r else s
  | "" => ""
  end.

Definition is_digit (c : ascii) : bool :=
  (48 <=? N_of_ascii c)%N && (N_of_ascii c <=? 57)%N.

(** The longest prefix of digits, and what follows it. *)
Fixpoint span_digits (s : string) : string * string :=
  match s with
  | String c r =>
      if is_digit c then
        let '(ds, r') := span_digits r in (String c ds, r')
      else ("", s)
  | "" => ("", "")
  end.

Definition hex_val (c : ascii) : option N :=
  let n := N_of_ascii c in
  if is_digit c then Some (n - 48)%N
  else if (97 <=? n)%N && (n <=? 102)%N then Some (n - 87)%N
  else if (65 <=? n)%N && (n <=? 70)%N then Some (n - 55)%N
  else None.

Definition hex4 (a b c d : ascii) : option N :=
  match hex_val a, hex_val b, hex_val c, hex_val d with
  | Some x, Some y, Some z, Some w => Some (((x * 16 + y) * 16 + z) * 16 + w)%N
  | _, _, _, _ => None
  end.

(** The UTF-8 bytes of a code point (a lone surrogate gets its three
    bytes as well). *)
Definition utf8_encode (cp : N) : string :=
  if (cp <? 128)%N then String (ascii_of_N cp) ""
  else if (cp <? 2048)%N then
    String (ascii_of_N (192 + cp / 64))
      (String (ascii_of_N (128 + cp mod 64)) "")
  else if (cp <? 65536)%N then
    String (ascii_of_N (224 + cp / 4096))
      (String (ascii_of_N (128 + (cp / 64) mod 64))
        (String (ascii_of_N (128 + cp mod 64)) ""))
  else
    String (ascii_of_N (240 + cp / 262144))
      (String (ascii_of_N (128 + (cp / 4096) mod 64))
        (String (ascii_of_N (128 + (cp / 64) mod 64))
          (String (ascii_of_N (128 + cp mod 64)) ""))).

Definition is_high_surrogate (cp : N) : bool :=
  (55296 <=? cp)%N && (cp <=? 56319)%N.
Definition is_low_surrogate (cp : N) : bool :=
  (56320 <=? cp)%N && (cp <=? 57343)%N.
Definition join_surrogates (hi lo : N) : N :=
  (65536 + (hi - 55296) * 1024 + (lo - 56320))%N.

(** [BACKSLASH]: the one-letter escapes. *)
Definition unescape (c : ascii) : option ascii :=
  if Ascii.eqb c dquote then Some dquote
  else if Ascii.eqb c backslash then Some backslash
  else if Ascii.eqb c "/" then Some "/"%char
  else if Ascii.eqb c "b" then Some BS
  else if Ascii.eqb c "f" then Some FF
  else if Ascii.eqb c "n" then Some LF
  else if Ascii.eqb c "r" then Some CR
  else if Ascii.eqb c "t" then Some TAB
  else None.

Definition jprepend (pre : string) (r : jres (string * string))
  : jres (string * string) :=
  jbind r (fun p => JOk (pre ++ fst p, snd p)).

(** [scanstring(s, end, strict=True)]: [s] is the text after the opening
    quote, [begin] the text from the opening quote on.  A bad one-letter
    escape is reported at its backslash, a bad [u] escape at its [u]. *)
Fixpoint scanstring (begin s : string) : jres (string * string) :=
  match s with
  | "" => JErr "Unterminated string starting at" begin
  | String c r =>
      if Ascii.eqb c dquote then JOk ("", r)
      else if Ascii.eqb c backslash then
        match r with
        | "" => JErr "Unterminated string starting at" begin
        | String e r1 =>
            if Ascii.eqb e "u" then
              match r1 with
              | String h1 (String h2 (String h3 (String h4 (String _ _ as r4)))) =>
                  match hex4 h1 h2 h3 h4 with
                  | None => JErr "Invalid \uXXXX escape" r
                  | Some cp =>
                      if is_high_surrogate cp then
                        match r4 with
                        | String b2 (String u2 (String g1 (String g2
                            (String g3 (String g4 (String _ _ as r10))))) as r5) =>
                            if Ascii.eqb b2 backslash && Ascii.eqb u2 "u" then
                              match hex4 g1 g2 g3 g4 with
                              | None => JErr "Invalid \uXXXX escape" r5
                              | Some cp2 =>
                                  if is_low_surrogate cp2 then
                                    jprepend
                                      (utf8_encode (join_surrogates cp cp2))
                                      (scanstring begin r10)
                                  else
                                    jprepend (utf8_encode cp)
                                      (scanstring begin r4)
                              end
                            else
                              jprepend (utf8_encode cp) (scanstring begin r4)
                        | _ => jprepend (utf8_encode cp) (scanstring begin r4)
                        end
                      else jprepend (utf8_encode cp) (scanstring begin r4)
                  end
              | _ => JErr "Invalid \uXXXX escape" r
              end
            else
              match unescape e with
              | Some ch => jprepend (String ch "") (scanstring begin r1)
              | None => JErr "Invalid \escape" s
              end
        end
      else if (N_of_ascii c <? 32)%N then JErr "Invalid control character at" s
      else jprepend (String c "") (scanstring begin r)
  end.

(** [NUMBER_RE]: an optional minus sign, then either a single [0] or a
    non-zero digit followed by digits; then optionally a dot with one or
    more digits; then optionally [e] or [E], an optional sign and one or
    more digits.  The result is the matched text, whether it has a fraction
    or an exponent, and the remaining text. *)
Definition match_integer (s : string) : option (string * string) :=
  match s with
  | String c r =>
      if Ascii.eqb c "0" then Some ("0", r)
      else if is_digit c then
        let '(ds, r') := span_digits r in Some (String c ds, r')
      else None
  | "" => None
  end.

Definition match_frac (s : string) : string * string :=
  match s with
  | String c r =>
      if Ascii.eqb c "." then
        match span_digits r with
        | ("", _) => ("", s)
        | (ds, r') => (String c ds, r')
        end
      else ("", s)
  | "" => ("", s)
  end.

Definition match_exp (s : string) : string * string :=
  match s with
  | String e r =>
      if Ascii.eqb e "e" || Ascii.eqb e "E" then
        let '(sign, r1) :=
          match r with
          | String g r' =>
              if Ascii.eqb g "+" || Ascii.eqb g "-" then (String g "", r')
              else ("", r)
          | "" => ("", r)
          end in
        match span_digits r1 with
        | ("", _) => ("", s)
        | (ds, r2) => (String e (sign ++ ds), r2)
        end
      else ("", s)
  | "" => ("", s)
  end.

Definition match_number (s : string) : option (string * bool * string) :=
  let '(sign, s1) :=
    match s with
    | String c r => if Ascii.eqb c "-" then ("-", r) else ("", s)
    | "" => ("", s)
    end in
  match match_integer s1 with
  | None => None
  | Some (ip, s2) =>
      let '(fr, s3) := match_frac s2 in
      let '(ex, s4) := match_exp s3 in
      Some (sign ++ ip ++ fr ++ ex,
            negb (String.eqb fr "" && String.eqb ex ""), s4)
  end.

(** [int(text)] for a text matched by the integer part of [NUMBER_RE]. *)
Definition int_of_text (t : string) : Z :=
  match NilEmpty.int_of_string t with
  | Some d => Z.of_int d
  | None => 0%Z
  end.

Definition number_value (t : string) (is_float : bool) : pyval :=
  if is_float then PFloat t else PInt (int_of_text t).

(** Whether [s] starts with [p], and what follows. *)
Fixpoint strip_prefix (p s : string) : option string :=
  match p, s with
  | "", _ => Some s
  | String a p', String b s' =>
      if Ascii.eqb a b then strip_prefix p' s' else None
  | String _ _, "" => None
  end.

(** The values [scan_once] reads without a call of its own: [null],
    [true], [false], the three names of floats that are not numbers, and
    the numbers. *)
Definition scan_scalar (s : string) : jres (pyval * string) :=
  match strip_prefix "null" s, strip_prefix "true" s,
        strip_prefix "false" s with
  | Some r', _, _ => JOk (PNone, r')
  | _, Some r', _ => JOk (PBool true, r')
  | _, _, Some r' => JOk (PBool false, r')
  | _, _, _ =>
      match strip_prefix "NaN" s, strip_prefix "Infinity" s,
            strip_prefix "-Infinity" s with
      | Some r', _, _ => JOk (PFloat "NaN", r')
      | _, Some r', _ => JOk (PFloat "Infinity", r')
      | _, _, Some r' => JOk (PFloat "-Infinity", r')
      | _, _, _ =>
          match match_number s with
          | Some (t, isf, r') => JOk (number_value t isf, r')
          | None => JErr "Expecting value" s
          end
      end
  end.

(** [scan_once], [JSONObject] and [JSONArray].  [fuel] bounds the chain of
    calls; [json_loads] supplies more than any document can use. *)
Fixpoint scan_once (fuel : nat) (s : string) {struct fuel}
  : jres (pyval * string) :=
  match fuel with
  | O => JDepth
  | S fuel' =>
      match s with
      | "" => JErr "Expecting value" s
      | String c r =>
          if Ascii.eqb c dquote then
            jbind (scanstring s r) (fun p => JOk (PStr (fst p), snd p))
          else if Ascii.eqb c "{" then
            let r1 := skip_ws r in
            match r1 with
            | String "}" r2 => JOk (PDict [], r2)
            | _ => parse_members fuel' r1 []
            end
          else if Ascii.eqb c "[" then
            let r1 := skip_ws r in
            match r1 with
            | String "]" r2 => JOk (PList [], r2)
            | _ => parse_items fuel' r1 []
            end
          else scan_scalar s
      end
  end

with parse_members (fuel : nat) (s : string) (acc : list (string * pyval))
  {struct fuel} : jres (pyval * string) :=
  match fuel with
  | O => JDepth
  | S fuel' =>
      match s with
      | String c r =>
          if Ascii.eqb c dquote then
            jbind (scanstring s r) (fun p =>
              let key := fst p in
              let r1 := skip_ws (snd p) in
              match r1 with
              | String ":" r2 =>
                  jbind (scan_once fuel' (skip_ws r2)) (fun q =>
                    let acc' := dict_set key (fst q) acc in
                    let r3 := skip_ws (snd q) in
                    match r3 with
                    | String "}" r4 => JOk (PDict acc', r4)
                    | String "," r4 => parse_members fuel' (skip_ws r4) acc'
                    | _ => JErr "Expecting ',' delimiter" r3
                    end)
              | _ => JErr "Expecting ':' delimiter" r1
              end)
          else JErr "Expecting property name enclosed in double quotes" s
      | "" => JErr "Expecting property name enclosed in double quotes" s
      end
  end

with parse_items (fuel : nat) (s : string) (acc : list pyval)
  {struct fuel} : jres (pyval * string) :=
  match fuel with
  | O => JDepth
  | S fuel' =>
      jbind (scan_once fuel' s) (fun q =>
        let acc' := (acc ++ [fst q])%list in
        let r3 := skip_ws (snd q) in
        match r3 with
        | String "]" r4 => JOk (PList acc', r4)
        | String "," r4 => parse_items fuel' (skip_ws r4) acc'
        | _ => JErr "Expecting ',' delimiter" r3
        end)
  end.




Definition BOM : string :=
  String "239"%char (String "187"%char (String "191"%char "")).

(** The number of characters of a text: every byte counts but those that
    continue a character. *)
Definition is_continuation (c : ascii) : bool :=
  (128 <=? N_of_ascii c)%N && (N_of_ascii c <? 192)%N.

Fixpoint char_length (s : string) : nat :=
  match s with
  | "" => 0
  | String c r => if is_continuation c then char_length r else S (char_length r)
  end.

Definition json_loads (s : string) : result pyval :=
  match strip_prefix BOM s with
  | Some _ =>
      Raise (JSONDecodeError "Unexpected UTF-8 BOM (decode using utf-8-sig)" s 0)
  | None =>
      match scan_once (2 * String.length s + 2) (skip_ws s) with
      | JOk (v, r) =>
          match skip_ws r with
          | "" => Ok v
          | r' =>
              Raise (JSONDecodeError "Extra data" s
                       (char_length s - char_length r'))
          end
      | JErr msg at_ =>
          Raise (JSONDecodeError msg s (char_length s - char_length at_))
      | JDepth => Raise RecursionError
      end
  end.

(** ** Values as Python has them

    A [pyval] stands for a Python value when its dictionaries have no
    repeated key and its floats carry a text that JSON has for a float. *)

Definition float_literal (lit : string) : bool :=
  String.eqb lit "NaN" || String.eqb lit "Infinity"
  || String.eqb lit "-Infinity"
  || match match_number lit with
     | Some (_, true, "") => true
     | _ => false
     end.

Fixpoint wf_val (v : pyval) : bool :=
  match v with
  | PFloat lit => float_literal lit
  | PList items => forallb wf_val items
  | PDict pairs =>
      bool_decide (NoDup (map fst pairs))
      && forallb (fun kv => wf_val (snd kv)) pairs
  | _ => true
  end.

(** A text that cannot continue a number. *)
Definition num_end (rest : string) : bool :=
  match rest with
  | "" => true
  | String c _ =>
      negb (is_digit c || Ascii.eqb c "." || Ascii.eqb c "e" || Ascii.eqb c "E")
  end.

Fixpoint all_chars (p : ascii -> bool) (s : string) : bool :=
  match s with
  | "" => true
  | String c r => p c && all_chars p r
  end.

(** The characters a number is written with. *)
Definition number_char (c : ascii) : bool :=
  is_digit c || Ascii.eqb c "-" || Ascii.eqb c "+" || Ascii.eqb c "."
  || Ascii.eqb c "e" || Ascii.eqb c "E".

(** A character that does not end a line. *)
Definition no_break (c : ascii) : bool :=
  negb (Ascii.eqb c LF || Ascii.eqb c CR).

(** The text of one member of a dictionary. *)
Definition member_text (kv : string * pyval) : string :=
  py_encode_basestring (fst kv) ++ ": " ++ json_dumps (snd kv).

(** The characters a JSON text written by [json_dumps] can start with. *)
Definition value_start (c : ascii) : bool :=
  is_digit c || Ascii.eqb c "-" || Ascii.eqb c dquote || Ascii.eqb c "["
  || Ascii.eqb c "{" || Ascii.eqb c "n" || Ascii.eqb c "t" || Ascii.eqb c "f"
  || Ascii.eqb c "N" || Ascii.eqb c "I".

(** [scans v]: the scanner reads back the text of [v], whatever follows
    it, as soon as it has fuel for twice the length of the text. *)
Definition scans (v : pyval) : Prop :=
  forall (f : nat) (rest : string),
    2 * String.length (json_dumps v) <= f ->
    num_end rest = true ->
    scan_once f (json_dumps v ++ rest) = JOk (v, rest).

(** ** [dspy.Example] *)

(** [_store] holds the fields in insertion order; [_input_keys] is [None]
    until [with_inputs] sets it. *)
Record Example : Type := mkExample {
  _store : list (string * pyval);
  _input_keys : option (gset string)
}.

(** [__len__]: the fields whose name does not start with [dspy_]; an
    object with a [__len__] is true when its length is not zero. *)
Definition Example_len (e : Example) : nat :=
  length (List.filter (fun k => negb (String.prefix "dspy_" k))
            (dict_keys (_store e))).

Definition Example_bool (e : Example) : bool := negb (Nat.eqb (Example_len e) 0).

Inductive base_arg : Type :=
| BaseExample (e : Example)
| BaseValue (v : pyval).

(** [Example.__init__(self, base=None, **kwargs)]: the store starts as a
    copy of a true [base] that is an [Example] or a [dict], and is then
    updated with [kwargs]. *)
Definition Example_init (base : option base_arg)
  (kwargs : list (string * pyval)) : Example :=
  let store :=
    match base with
    | Some (BaseExample e) => if Example_bool e then _store e else []
    | Some (BaseValue (PDict d)) => d
    | _ => []
    end in
  {| _store := dict_update store kwargs; _input_keys := None |}.

(** [dspy.Example] called with [data] unpacked into keyword arguments
    (line 44 of data_utils.py): [data] must be a mapping; its entries are bound
    to the parameters of [__init__] by name, so that an entry [self]
    collides with the receiver, an entry [base] becomes the [base]
    argument, and the others make up [kwargs]. *)
Definition Example_splat (data : pyval) : result Example :=
  match data with
  | PDict d =>
      match dict_get "self" d with
      | Some _ =>
          Raise (TypeError "__init__() got multiple values for argument 'self'")
      | None =>
          Ok (Example_init (option_map BaseValue (dict_get "base" d))
                (dict_del "base" d))
      end
  | _ => Raise (TypeError "argument after ** must be a mapping")
  end.

(** [copy()] is [type(self)(base=self)]. *)
Definition Example_copy (e : Example) : Example :=
  Example_init (Some (BaseExample e)) [].

(** [with_inputs]: a copy whose input keys are the set of the given names. *)
Definition with_inputs (e : Example) (keys : list string) : Example :=
  {| _store := _store (Example_copy e);
     _input_keys := Some (list_to_set keys) |}.

(** [toDict()] *)
Definition toDict (e : Example) : pyval := PDict (_store e).

(** ** Text files *)

(** The files that exist, with their text; the paths that cannot be
    opened for writing; and what Python and the operating system answer
    when [open] fails.  For a path that holds no file to read, given the
    files there are and the path, [read_error] is the exception that
    [open] raises ([FileNotFoundError] when there is no such file or
    directory, [NotADirectoryError] when a part of the path is a file,
    [ValueError] for a path with a null byte, and so on); for a path that
    cannot be opened for writing, [write_error] is the exception
    ([PermissionError], [FileNotFoundError] when the directory is missing,
    [IsADirectoryError], and so on). *)
Record filesystem : Type := mkFs {
  files : gmap string string;
  unwritable : gset string;
  read_error : gmap string string -> string -> exn;
  write_error : string -> exn
}.

Definition IO (A : Type) : Type := filesystem -> result A * filesystem.

Definition ret {A} (a : A) : IO A := fun fs => (Ok a, fs).

Definition bind {A B} (m : IO A) (k : A -> IO B) : IO B :=
  fun fs =>
    match m fs with
    | (Ok a, fs') => k a fs'
    | (Raise e, fs') => (Raise e, fs')
    end.

Definition lift {A} (r : result A) : IO A := fun fs => (r, fs).

Notation "x <- m ;; k" := (bind m (fun x => k))
  (at level 100, m at next level, right associativity).
Notation "m ;;; k" := (bind m (fun _ => k))
  (at level 100, right associativity).

(** [open(file_path, 'w', encoding='utf-8')]: creates the file or empties
    it. *)
Definition open_w (file_path : string) : IO unit :=
  fun fs =>
    if bool_decide (file_path ∈ unwritable fs) then
      (Raise (write_error fs file_path), fs)
    else
      (Ok tt, {| files := <[file_path := ""]> (files fs);
                 unwritable := unwritable fs;
                 read_error := read_error fs;
     write_error := write_error fs |}).

(** Whether UTF-8 can encode a text: it holds no lone surrogate, that is,
    no byte [ED] followed by a byte from [A0] to [BF]. *)
Fixpoint encodable (s : string) : bool :=
  match s with
  | "" => true
  | String c r =>
      match r with
      | String d _ =>
          negb (Ascii.eqb c "237"
                && (160 <=? N_of_ascii d)%N && (N_of_ascii d <=? 191)%N)
      | "" => true
      end && encodable r
  end.

(** [f.write(text)] on a file opened by [open_w]: the text is encoded as a
    whole, so that a text that cannot be encoded raises
    [UnicodeEncodeError] and none of it is written; what was written
    before stays in the file. *)
Definition write (file_path text : string) : IO unit :=
  fun fs =>
    if encodable text then
      (Ok tt,
       {| files := <[file_path := default "" (files fs !! file_path) ++ text]>
                     (files fs);
          unwritable := unwritable fs;
          read_error := read_error fs;
     write_error := write_error fs |})
    else (Raise (UnicodeEncodeError text), fs).

(** [open(file_path, 'r', encoding='utf-8')] *)
Definition open_r (file_path : string) : IO string :=
  fun fs =>
    match files fs !! file_path with
    | Some text => (Ok text, fs)
    | None => (Raise (read_error fs (files fs) file_path), fs)
    end.

(** [for line in f]: the lines of the text, each with its line end, which
    reading in text mode turns into a line feed. *)
Fixpoint iter_lines (s : string) : list string :=
  match s with
  | "" => []
  | String c r =>
      if Ascii.eqb c LF then String LF "" :: iter_lines r
      else if Ascii.eqb c CR then
        match r with
        | String c' r' =>
            if Ascii.eqb c' LF then String LF "" :: iter_lines r'
            else String LF "" :: iter_lines r
        | "" => [String LF ""]
        end
      else
        match iter_lines r with
        | [] => [String c ""]
        | l :: ls => String c l :: ls
        end
  end.

(** ** [utils/data_utils.py] *)

Fixpoint for_each {A} (xs : list A) (body : A -> IO unit) : IO unit :=
  match xs with
  | [] => ret tt
  | x :: xs' => body x ;;; for_each xs' body
  end.

Definition save_trainset (trainset : list Example) (file_path : string)
  : IO unit :=
  open_w file_path ;;;
  for_each trainset (fun ex =>
    write file_path (json_dumps (toDict ex) ++ String LF "")).

(** The default of [input_keys]. *)
Definition default_input_keys : list string := ["question"; "context"].

(** The body of the loop of [load_trainset], for one line. *)
Definition load_line (input_keys : list string) (line : string)
  : result Example :=
  rbind (json_loads line) (fun data =>
  rbind (Example_splat data) (fun e =>
  Ok (with_inputs e input_keys))).

Fixpoint load_lines (input_keys : list string) (lines : list string)
  (loaded_data : list Example) : result (list Example) :=
  match lines with
  | [] => Ok loaded_data
  | line :: lines' =>
      rbind (load_line input_keys line) (fun example =>
      load_lines input_keys lines' (loaded_data ++ [example])%list)
  end.

(** [input_keys = None] is the call that leaves the argument out. *)
Definition load_trainset (file_path : string)
  (input_keys : option (list string)) : IO (list Example) :=
  let input_keys := default default_input_keys input_keys in
  f <- open_r file_path ;;
  lift (load_lines input_keys (iter_lines f) []).

(** *** What the two functions are compared with *)

(** The line [save_trainset] writes for one example, and the text it
    writes for a trainset. *)
Definition record_line (ex : Example) : string :=
  json_dumps (toDict ex) ++ String LF "".

Definition trainset_text (trainset : list Example) : string :=
  String.concat "" (map record_line trainset).

(** The same, read off the fields that the example stores: the line of
    one example is the JSON text of the dictionary of its fields and a
    line feed. *)
Definition store_line (ex : Example) : string :=
  json_dumps (PDict (_store ex)) ++ String LF "".

Definition store_text (trainset : list Example) : string :=
  String.concat "" (map store_line trainset).

(** The file system in which [file_path] holds [text] and nothing else
    differs. *)
Definition with_file (fs : filesystem) (file_path text : string) : filesystem :=
  {| files := <[file_path := text]> (files fs);
     unwritable := unwritable fs;
     read_error := read_error fs;
     write_error := write_error fs |}.

(** An example with the fields of [ex] and the input keys declared at
    load time. *)
Definition reloaded (input_keys : list string) (ex : Example) : Example :=
  {| _store := _store ex; _input_keys := Some (list_to_set input_keys) |}.

(** The examples that [Example] rebuilds from their own fields: no field is
    bound to a parameter of [__init__], and the example is empty or has a
    field that counts for its length. *)
Definition rebuilds (ex : Example) : bool :=
  match dict_get "self" (_store ex), dict_get "base" (_store ex) with
  | None, None =>
      Example_bool ex || match _store ex with [] => true | _ => false end
  | _, _ => false
  end.

(** The first line on which the loop of [load_trainset] raises: its index
    from [i] on, and the exception. *)
Fixpoint first_bad (input_keys : list string) (lines : list string) (i : nat)
  : option (nat * exn) :=
  match lines with
  | [] => None
  | line :: lines' =>
      match load_line input_keys line with
      | Raise e => Some (i, e)
      | Ok _ => first_bad input_keys lines' (S i)
      end
  end.

(** *** Sample data *)

(** The answers of a POSIX system whose directories are those that hold
    one of the files, for paths written without [.], [..], repeated
    slashes and the characters from U+DC80 to U+DCFF (which stand for
    single bytes in a path): a path with a lone surrogate cannot be
    encoded; a null byte is refused by Python; a path of 4096 bytes or
    more, or a name of more than 255 bytes in a directory that exists, is
    too long (error 36); a file in the place of a directory gives
    [NotADirectoryError], a directory in the place of the file
    [IsADirectoryError], and anything else is not found. *)
Definition has_nul (path : string) : bool :=
  negb (all_chars (fun c => negb (Ascii.eqb c "000")) path).

Definition is_directory (fls : gmap string string) (dir : string) : bool :=
  existsb (fun kv => String.prefix (dir ++ "/") (fst kv)) (map_to_list fls).

(** [seen] is the part of the path read so far, [cur] the name being
    read, [rest] what is left to read. *)
Fixpoint resolve (fls : gmap string string) (path seen cur rest : string)
  : exn :=
  match rest with
  | "" =>
      if (255 <? String.length cur)%nat then OSError 36 path
      else if String.eqb path "" then FileNotFoundError path
      else if String.eqb cur "" then IsADirectoryError path
      else if is_directory fls seen then IsADirectoryError path
      else FileNotFoundError path
  | String c r =>
      if Ascii.eqb c "/" then
        if String.eqb cur "" then resolve fls path (seen ++ "/") "" r
        else if (255 <? String.length cur)%nat then OSError 36 path
        else if bool_decide (is_Some (fls !! seen)) then NotADirectoryError path
        else if is_directory fls seen then resolve fls path (seen ++ "/") "" r
        else FileNotFoundError path
      else resolve fls path (seen ++ String c "") (cur ++ String c "") r
  end.

Definition posix_read_error (fls : gmap string string) (path : string) : exn :=
  if negb (encodable path) then UnicodeEncodeError path
  else if has_nul path then ValueError "embedded null byte"
  else if (4096 <=? String.length path)%nat then OSError 36 path
  else resolve fls path "" "" path.


(** A file system with one file. *)
Definition one_file (file_path text : string) : filesystem :=
  {| files := {[ file_path := text ]}; unwritable := ∅;
     read_error := posix_read_error;
     write_error := PermissionError |}.

Definition fs_empty : filesystem :=
  {| files := ∅; unwritable := ∅; read_error := posix_read_error;
     write_error := PermissionError |}.

Definition ex_qa : Example :=
  {| _store := [("question", PStr "What is DSPy?");
                ("context", PStr ("1. A framework" ++ String LF "2. For LMs"));
                ("answer", PStr "A framework [[1]]")];
     _input_keys := Some {[ "question" ]} |}.

Definition ex_scored : Example :=
  {| _store := [("requirements", PStr "weekly report");
                ("weight", PFloat "0.75");
                ("rounds", PInt 3);
                ("checked", PBool true)];
     _input_keys := None |}.

(** An example with a field named [base], as [dspy.Example] makes it from
    the mapping with the entries [question] and [base]. *)
Definition ex_base : Example :=
  Example_init
    (Some (BaseValue (PDict [("question", PStr "q"); ("base", PStr "b")]))) [].

(** An example with a field named [self]. *)
Definition ex_self : Example :=
  Example_init (Some (BaseValue (PDict [("self", PStr "me")]))) [].


(** A text between quotes, for the sample texts. *)
Definition quoted (s : string) : string := String dquote (s ++ String dquote "").

Definition text_bad_second : string := "{}" ++ String LF ("oops" ++ String LF "").

(** ** The judge metrics *)

(** What [dspy.Prediction(score=..., feedback=...)] holds. *)
Record Score : Type := mkScore {
  score : float;
  feedback : string
}.

Inductive printed : Type :=
| PrStr (s : string)
| PrFloat (f : float)
| PrVal (v : pyval).

(** The objects a metric call can reach: its two arguments, and the
    standard output. *)
Record frame : Type := mkFrame {
  example : Example;
  pred : Example;
  stdout : list (list printed)
}.

Definition M (A : Type) : Type := frame -> result A * frame.

Definition mret {A} (a : A) : M A := fun st => (Ok a, st).

Definition mbind {A B} (m : M A) (k : A -> M B) : M B :=
  fun st =>
    match m st with
    | (Ok a, st') => k a st'
    | (Raise e, st') => (Raise e, st')
    end.

Definition mlift {A} (r : result A) : M A := fun st => (r, st).

Notation "x <~ m ;; k" := (mbind m (fun x => k))
  (at level 100, m at next level, right associativity).

(** [Example.__getattr__]: a field of the store, or [AttributeError]. *)
Definition Example_getattr (e : Example) (name : string) : result pyval :=
  match dict_get name (_store e) with
  | Some v => Ok v
  | None => Raise (AttributeError name)
  end.

Definition example_attr (name : string) : M pyval :=
  fun st => (Example_getattr (example st) name, st).

Definition pred_attr (name : string) : M pyval :=
  fun st => (Example_getattr (pred st) name, st).

Definition print (args : list printed) : M unit :=
  fun st =>
    (Ok tt,
     {| example := example st; pred := pred st;
        stdout := (stdout st ++ [args])%list |}).

(** An output field of the judge's answer: present or not. *)
Definition attr {A} (name : string) (field : option A) : M A :=
  mlift match field with
        | Some v => Ok v
        | None => Raise (AttributeError name)
        end.

(** What an output field of the judge can hold when the signature does
    not fix its type: a [bool], an [int], a [float], a [str], [None], or a
    value of another type, of which the name is kept. *)
Inductive pyobj : Type :=
| OBool (b : bool)
| OInt (n : Z)
| OFloat (x : float)
| OStr (s : string)
| ONone
| OOther (type_name : string).

(** [float(n)] for an [int]: the nearest float, ties to even, or
    [OverflowError] when that is beyond the largest float. *)
Definition float_of_int (n : Z) : result float :=
  match binary_normalize prec emax n 0 false with
  | S754_infinity _ => Raise (OverflowError "int too large to convert to float")
  | x => Ok (SF2Prim x)
  end.

(** [float(v)].  For a [str], [float_of_str] is the conversion of the
    interpreter: the float that the text denotes, or nothing when the text
    denotes none and [float] raises [ValueError]. *)
Definition py_float (float_of_str : string -> option float) (v : pyobj)
  : result float :=
  match v with
  | OBool b => Ok (if b then 1%float else 0%float)
  | OInt n => float_of_int n
  | OFloat x => Ok x
  | OStr s =>
      match float_of_str s with
      | Some x => Ok x
      | None => Raise (ValueError "could not convert string to float")
      end
  | ONone | OOther _ =>
      Raise (TypeError "float() argument must be a string or a real number")
  end.

(** An output field that is absent, or present with a value that [float]
    converts. *)
Definition converts (float_of_str : string -> option float)
  (field : option pyobj) : Prop :=
  match field with
  | Some v => exists x, py_float float_of_str v = Ok x
  | None => True
  end.

Module search_assistant.

(** The output fields of the signature [AssessQuality].  The three
    criteria are declared without an annotation, so that the signature
    fixes no type for what the judge delivers in them. *)
Record AssessQuality : Type := {
  is_grounded : option pyobj;
  language_match : option pyobj;
  citation_correct : option pyobj;
  rationale : option string
}.

Definition main_lm : string := "openai/gpt-4.1-mini".
Definition judge_lm : string := "openai/gpt-4o".

(** [judge] is the module [dspy.ChainOfThought(AssessQuality)]: given the
    language model in force and the input fields, an answer or an
    exception.  Each criterion is read and converted by [float] before the
    next one is read. *)
Definition llm_judge_metric (float_of_str : string -> option float)
  (judge : string -> list (string * pyval) -> result AssessQuality)
  : M Score :=
  context <~ example_attr "context" ;;
  question <~ example_attr "question" ;;
  answer <~ pred_attr "answer" ;;
  assessment <~ mlift (judge judge_lm
    [("context", context); ("question", question); ("answer", answer)]) ;;
  g <~ attr "is_grounded" (is_grounded assessment) ;;
  g <~ mlift (py_float float_of_str g) ;;
  l <~ attr "language_match" (language_match assessment) ;;
  l <~ mlift (py_float float_of_str l) ;;
  c <~ attr "citation_correct" (citation_correct assessment) ;;
  c <~ mlift (py_float float_of_str c) ;;
  let total_score := ((g + l + c) / 3)%float in
  r <~ attr "rationale" (rationale assessment) ;;
  mret {| score := total_score; feedback := r |}.

End search_assistant.

Module audio_assistant.

(** The output fields of the signature [AssessTemplateQuality]; each
    criterion is annotated [float]. *)
Record AssessTemplateQuality : Type := {
  general_score : option float;
  tone_score : option float;
  scenario_alignment_score : option float;
  audience_match_score : option float;
  language_consistency_score : option float;
  language_appropriateness_score : option float;
  rationale : option string
}.

Definition main_lm : string := "ollama/Qwen3-4B-2507-RL-global-20-0114-fp16".
Definition judge_lm : string := "openai/gpt-5-mini".

Definition llm_judge_metric
  (judge : string -> list (string * pyval) -> result AssessTemplateQuality)
  : M Score :=
  requirements <~ example_attr "requirements" ;;
  template <~ pred_attr "template" ;;
  assessment <~ mlift (judge judge_lm
    [("requirements", requirements); ("template", template)]) ;;
  lc <~ attr "language_consistency_score"
          (language_consistency_score assessment) ;;
  _ <~ (if (lc <? 0.5)%float then
          _ <~ print [PrStr "language_consistency_score: "; PrFloat lc] ;;
          requirements <~ example_attr "requirements" ;;
          _ <~ print [PrStr "requirements: "; PrVal requirements] ;;
          template <~ pred_attr "template" ;;
          print [PrStr "template: "; PrVal template]
        else mret tt) ;;
  g <~ attr "general_score" (general_score assessment) ;;
  t <~ attr "tone_score" (tone_score assessment) ;;
  s <~ attr "scenario_alignment_score" (scenario_alignment_score assessment) ;;
  a <~ attr "audience_match_score" (audience_match_score assessment) ;;
  lc <~ attr "language_consistency_score"
          (language_consistency_score assessment) ;;
  la <~ attr "language_appropriateness_score"
          (language_appropriateness_score assessment) ;;
  let total_score := ((g + t + s + a + lc + la) / 6)%float in
  r <~ attr "rationale" (rationale assessment) ;;
  mret {| score := total_score; feedback := r |}.

End audio_assistant.

(** *** What the metrics are compared with *)

Fixpoint float_of_nat (n : nat) : float :=
  match n with
  | O => 0%float
  | S n' => (float_of_nat n' + 1)%float
  end.

(** The unweighted arithmetic mean of a list of criterion values: their
    sum, from left to right, divided by their number. *)
Definition mean (xs : list float) : float :=
  match xs with
  | [] => nan
  | x :: xs' => (fold_left PrimFloat.add xs' x / float_of_nat (length xs))%float
  end.

(** *** Sample calls *)

Definition frame_search : frame :=
  {| example := ex_qa;
     pred := {| _store := [("context", PList [PStr "1. A framework"]);
                           ("answer", PStr "A framework [[1]]")];
                _input_keys := None |};
     stdout := [] |}.

Definition answer_search : search_assistant.AssessQuality :=
  {| search_assistant.is_grounded := Some (OBool true);
     search_assistant.language_match := Some (OBool false);
     search_assistant.citation_correct := Some (OBool true);
     search_assistant.rationale := Some "Wrong language." |}.

(** An answer that lacks [citation_correct]. *)
Definition answer_search_partial : search_assistant.AssessQuality :=
  {| search_assistant.is_grounded := Some (OBool true);
     search_assistant.language_match := Some (OBool true);
     search_assistant.citation_correct := None;
     search_assistant.rationale := Some "Grounded." |}.

Definition judge_search (lm : string) (kwargs : list (string * pyval))
  : result search_assistant.AssessQuality := Ok answer_search.

(** The conversion of texts to floats, as far as the samples go: the
    texts of 0, 0.5 and 1; the other texts are taken to stand for no
    float. *)
Definition float_of_str_sample (s : string) : option float :=
  if String.eqb s "1" then Some 1%float
  else if String.eqb s "0.5" then Some 0.5%float
  else if String.eqb s "0" then Some 0%float
  else None.

(** An answer whose first criterion is the text [True] and which lacks
    the third criterion. *)
Definition answer_search_text : search_assistant.AssessQuality :=
  {| search_assistant.is_grounded := Some (OStr "True");
     search_assistant.language_match := Some (OBool true);
     search_assistant.citation_correct := None;
     search_assistant.rationale := Some "Grounded." |}.

Definition judge_search_text (lm : string) (kwargs : list (string * pyval))
  : result search_assistant.AssessQuality := Ok answer_search_text.

Definition judge_search_partial (lm : string) (kwargs : list (string * pyval))
  : result search_assistant.AssessQuality := Ok answer_search_partial.

Definition frame_audio : frame :=
  {| example := ex_scored;
     pred := {| _store := [("template", PStr "# Weekly report")];
                _input_keys := None |};
     stdout := [] |}.

Definition answer_audio : audio_assistant.AssessTemplateQuality :=
  {| audio_assistant.general_score := Some 1%float;
     audio_assistant.tone_score := Some 0.5%float;
     audio_assistant.scenario_alignment_score := Some 1%float;
     audio_assistant.audience_match_score := Some 0.5%float;
     audio_assistant.language_consistency_score := Some 0.25%float;
     audio_assistant.language_appropriateness_score := Some 0.75%float;
     audio_assistant.rationale := Some "Mixed languages." |}.

(** An answer that lacks [tone_score]. *)
Definition answer_audio_partial : audio_assistant.AssessTemplateQuality :=
  {| audio_assistant.general_score := Some 1%float;
     audio_assistant.tone_score := None;
     audio_assistant.scenario_alignment_score := Some 1%float;
     audio_assistant.audience_match_score := Some 1%float;
     audio_assistant.language_consistency_score := Some 1%float;
     audio_assistant.language_appropriateness_score := Some 1%float;
     audio_assistant.rationale := Some "Fine." |}.

Definition judge_audio (lm : string) (kwargs : list (string * pyval))
  : result audio_assistant.AssessTemplateQuality := Ok answer_audio.

Definition judge_audio_partial (lm : string) (kwargs : list (string * pyval))
  : result audio_assistant.AssessTemplateQuality := Ok answer_audio_partial.

(** ** The rest of the two applications

    The scripts around the metrics call services that are not part of the
    repository: the web search, the random generator, the retriever and
    the language model behind [dspy.ChainOfThought] and [dspy.Predict], the
    optimizer, the standard input.  Each service is a function given to the
    model; what the scripts do with the answers follows the source. *)

Inductive script_exn : Type :=
| KeyError (key : string)
| UnboundLocalError (name : string)
| IndexError
| EOFError
| ServiceError (msg : string)
| Lib (e : exn).

Inductive outcome (A : Type) : Type :=
| Done (a : A)
| Fail (e : script_exn).
Arguments Done {A} a.
Arguments Fail {A} e.

(** What a script does that can be seen from outside. *)
Inductive event : Type :=
| Printed (args : list printed)
| PPrinted (arg : printed)
| Asked (prompt : string)
| Searched (question : string) (num_results : Z)
| Slept (seconds : Z)
| Compiled (trainset : list Example)
| Called (requirements : string).

Record machine : Type := mkMachine {
  disk : filesystem;
  trace : list event
}.

Definition Script (A : Type) : Type := machine -> outcome A * machine.

Definition sret {A} (a : A) : Script A := fun m => (Done a, m).

Definition sfail {A} (e : script_exn) : Script A := fun m => (Fail e, m).

Definition sbind {A B} (s : Script A) (k : A -> Script B) : Script B :=
  fun m =>
    match s m with
    | (Done a, m') => k a m'
    | (Fail e, m') => (Fail e, m')
    end.

Notation "x <<- s ;; k" := (sbind s (fun x => k))
  (at level 100, s at next level, right associativity).

Definition emit (ev : event) : Script unit :=
  fun m => (Done tt, {| disk := disk m; trace := (trace m ++ [ev])%list |}).

Definition of_outcome {A} (o : outcome A) : Script A := fun m => (o, m).

Definition of_result {A} (r : result A) : Script A :=
  fun m =>
    match r with
    | Ok a => (Done a, m)
    | Raise e => (Fail (Lib e), m)
    end.

(** A function of the trainset store, run on the disk of the machine. *)
Definition run_io {A} (io : IO A) : Script A :=
  fun m =>
    match io (disk m) with
    | (Ok a, fs') => (Done a, {| disk := fs'; trace := trace m |})
    | (Raise e, fs') => (Fail (Lib e), {| disk := fs'; trace := trace m |})
    end.

(** [os.path.exists(path)] *)
Definition path_exists (path : string) : Script bool :=
  fun m => (Done (bool_decide (is_Some (files (disk m) !! path))), m).

(** *** [apps/search_assistant.py]: [load_queries] *)


(** *** [apps/search_assistant.py]: [build_trainset] *)

(** The process environment, the draws of [random.randint(1, 10)] in the
    order of the iterations, and the search client: given the key, the
    engine id, the question and the number of results asked for, the
    snippets of the results, or a failure. *)
Record search_service : Type := {
  environ : gmap string string;
  randint : nat -> Z;
  web_search : string -> string -> string -> Z -> outcome (list string)
}.

(** [os.environ[key]] *)
Definition getenv (sv : search_service) (key : string) : Script string :=
  of_outcome match environ sv !! key with
             | Some v => Done v
             | None => Fail (KeyError key)
             end.

(** One entry of the context: the number of the result, from 1, a dot, a
    space and the snippet. *)
Definition numbered (i : nat) (snippet : string) : string :=
  int_repr (Z.of_nat i + 1) ++ ". " ++ snippet.

Definition make_context (snippets : list string) : string :=
  String.concat (String LF "") (imap numbered snippets).

(** [dspy.Example(question=question, context=context)] with both fields
    as inputs. *)
Definition question_example (question context : string) : Example :=
  with_inputs
    (Example_init None [("question", PStr question); ("context", PStr context)])
    ["question"; "context"].

(** The loop of [build_trainset], from iteration [i] on. *)
Fixpoint build_loop (sv : search_service) (api_key cx : string) (i : nat)
  (queries : list string) (trainset : list Example)
  : Script (list Example) :=
  match queries with
  | [] => sret trainset
  | question :: queries' =>
      let n := randint sv i in
      _ <<- emit (Searched question n) ;;
      search_results <<- of_outcome (web_search sv api_key cx question n) ;;
      let context := make_context search_results in
      _ <<- emit (Printed [PrStr context]) ;;
      let trainset' := (trainset ++ [question_example question context])%list in
      _ <<- emit (Slept 5) ;;
      build_loop sv api_key cx (S i) queries' trainset'
  end.

Definition build_trainset (sv : search_service) (queries : list string)
  : Script (list Example) :=
  shown <<- getenv sv "GOOGLE_CSE_API_KEY" ;;
  _ <<- emit (Printed [PrStr shown]) ;;
  api_key <<- getenv sv "GOOGLE_CSE_API_KEY" ;;
  cx <<- getenv sv "GOOGLE_CSE_CX" ;;
  build_loop sv api_key cx 0 queries [].

(** *** [apps/search_assistant.py]: the trainset of the script
    (lines 175 to 179) *)

Definition trainset_path : string := "data/trainset.jsonl".

Definition search_trainset (sv : search_service) (queries : list string)
  : Script (list Example) :=
  found <<- path_exists trainset_path ;;
  if found then run_io (load_trainset trainset_path None)
  else
    trainset <<- build_trainset sv queries ;;
    _ <<- run_io (save_trainset trainset trainset_path) ;;
    sret trainset.

(** *** [apps/search_assistant.py]: [GoogleRAg.forward] *)

(** The two modules that [GoogleRAg.__init__] sets up: the retriever, which
    gives the passages for a question, and the answer generator. *)
Record rag_modules : Type := {
  retrieve : pyval -> result pyval;
  generate_answer : pyval -> pyval -> result Example
}.

Definition GoogleRAg_forward (self : rag_modules) (question : pyval)
  : result Example :=
  rbind (retrieve self question) (fun context =>
  rbind (generate_answer self context question) (fun prediction =>
  rbind (Example_getattr prediction "answer") (fun answer =>
  Ok (Example_init None [("context", context); ("answer", answer)])))).

(** *** [apps/audio_assistant.py]: [main] *)

(** What the optimizer gives back: a program that answers a requirement
    with a prediction, the state that [save] writes, and the history of
    calls of the language model, each with its messages. *)
Record compiled_program : Type := {
  run_program : string -> result Example;
  program_state : string;
  history : list (list pyval)
}.

Definition requirements_path : string := "data/requirements.jsonl".

Fixpoint hashes (n : nat) : string :=
  match n with
  | O => ""
  | S n' => String "#" (hashes n')
  end.

Fixpoint pprint_each (messages : list pyval) : Script unit :=
  match messages with
  | [] => sret tt
  | message :: messages' =>
      _ <<- emit (PPrinted (PrVal message)) ;;
      pprint_each messages'
  end.

(** [compiled_program.save(path)] *)
Definition program_save (path text : string) : IO unit :=
  _ <- open_w path ;;
  write path text.

(** The loop that reads requirements until [exit]; [inputs] are the lines
    the standard input still holds. *)
Fixpoint repl (program : compiled_program) (inputs : list string)
  : Script unit :=
  match inputs with
  | [] =>
      _ <<- emit (Asked "Enter your requirements: ") ;;
      sfail EOFError
  | requirements :: inputs' =>
      _ <<- emit (Asked "Enter your requirements: ") ;;
      if String.eqb requirements "exit" then sret tt
      else
        _ <<- emit (Called requirements) ;;
        pred <<- of_result (run_program program requirements) ;;
        template <<- of_result (Example_getattr pred "template") ;;
        _ <<- emit (PPrinted (PrVal template)) ;;
        repl program inputs'
  end.

(** [main]: [tp_compile] is [tp.compile(VoiceMemoApp(), trainset=...)] for
    the optimizer set up with [llm_judge_metric]; the name [trainset] is
    bound only when the file of requirements exists. *)
Definition audio_main (tp_compile : list Example -> result compiled_program)
  (inputs : list string) : Script unit :=
  found <<- path_exists requirements_path ;;
  bound <<- (if found then
               trainset <<- run_io (load_trainset requirements_path
                                      (Some ["requirements"])) ;;
               sret (Some trainset)
             else sret None) ;;
  trainset <<- match bound with
               | Some trainset => sret trainset
               | None => sfail (UnboundLocalError "trainset")
               end ;;
  _ <<- emit (Compiled trainset) ;;
  compiled_program <<- of_result (tp_compile trainset) ;;
  _ <<- emit (PPrinted (PrStr ("prompt: " ++ hashes 300))) ;;
  messages <<- match last (history compiled_program) with
               | Some messages => sret messages
               | None => sfail IndexError
               end ;;
  _ <<- pprint_each messages ;;
  _ <<- emit (PPrinted (PrStr (hashes 300))) ;;
  _ <<- run_io (program_save "audio_assistant.json"
                  (program_state compiled_program)) ;;
  repl compiled_program inputs.

(** *** What the rest is compared with, and sample data *)

(** The text with every line feed written as carriage return and line
    feed. *)
Fixpoint crlf (s : string) : string :=
  match s with
  | "" => ""
  | String c r =>
      if Ascii.eqb c LF then String CR (String LF (crlf r))
      else String c (crlf r)
  end.

Definition no_CR (c : ascii) : bool := negb (Ascii.eqb c CR).

(** The trainset [ex_qa], [ex_scored] with other input keys. *)
Definition ex_qa_other : Example :=
  {| _store := _store ex_qa; _input_keys := Some {[ "context" ]} |}.

(** Three files: two trainsets and the two put end to end. *)
Definition fs_parts : filesystem :=
  {| files := {[ "a.jsonl" := trainset_text [ex_qa];
                 "b.jsonl" := trainset_text [ex_scored];
                 "ab.jsonl" := trainset_text [ex_qa; ex_scored] ]};
     unwritable := ∅;
     read_error := posix_read_error;
     write_error := PermissionError |}.

(** A saved trainset followed by an empty line. *)
Definition text_blank_end : string :=
  trainset_text [ex_qa] ++ String LF "".


(** The searches a trace records, in order: question and number of
    results asked for. *)
Definition searches (tr : list event) : list (string * Z) :=
  omap (fun ev => match ev with
                  | Searched question n => Some (question, n)
                  | _ => None
                  end) tr.

(** The calls of the compiled program a trace records, in order. *)
Definition calls (tr : list event) : list string :=
  omap (fun ev => match ev with
                  | Called requirements => Some requirements
                  | _ => None
                  end) tr.

(** What [build_trainset] makes of a query: an example with the fields
    [question] and [context], both strings and both inputs. *)
Definition built_from (query : string) (e : Example) : Prop :=
  exists context,
    e = {| _store := [("question", PStr query); ("context", PStr context)];
           _input_keys := Some {[ "question"; "context" ]} |}.

Definition service_sample : search_service :=
  {| environ := {[ "GOOGLE_CSE_API_KEY" := "key"; "GOOGLE_CSE_CX" := "engine" ]};
     randint := fun i => (1 + Z.of_nat i mod 10)%Z;
     web_search := fun _ _ question _ =>
                     Done ["about " ++ question; "more on " ++ question] |}.

(** A service without the engine id. *)
Definition service_no_engine : search_service :=
  {| environ := {[ "GOOGLE_CSE_API_KEY" := "key" ]};
     randint := fun _ => 1%Z;
     web_search := fun _ _ _ _ => Done [] |}.

(** A service whose searches fail. *)
Definition service_down : search_service :=
  {| environ := {[ "GOOGLE_CSE_API_KEY" := "key"; "GOOGLE_CSE_CX" := "engine" ]};
     randint := fun _ => 3%Z;
     web_search := fun _ _ _ _ => Fail (ServiceError "quota") |}.

Definition machine_empty : machine := {| disk := fs_empty; trace := [] |}.

(** A retriever and an answer generator that answer every question
    alike. *)
Definition rag_sample : rag_modules :=
  {| retrieve := fun _ => Ok (PList [PStr "DSPy is a framework"]);
     generate_answer := fun _ _ =>
       Ok {| _store := [("reasoning", PStr "The passage says so.");
                        ("answer", PStr "A framework [[1]]")];
             _input_keys := None |} |}.

(** What the audio metric prints for a judged language consistency
    [lc]. *)
Definition diagnostics (lc : float) (requirements template : pyval)
  : list (list printed) :=
  if (lc <? 0.5)%float then
    [[PrStr "language_consistency_score: "; PrFloat lc];
     [PrStr "requirements: "; PrVal requirements];
     [PrStr "template: "; PrVal template]]
  else [].

(** The program answers [requirements] with a prediction whose template
    is [template]. *)
Definition answers (program : compiled_program) (requirements : string)
  (template : pyval) : Prop :=
  exists prediction,
    run_program program requirements = Ok prediction
    /\ Example_getattr prediction "template" = Ok template.

(** What one round of the loop of [main] shows: the prompt, the call of the
    program and the template. *)
Definition round (requirements : string) (template : pyval) : list event :=
  [Asked "Enter your requirements: "; Called requirements;
   PPrinted (PrVal template)].

Definition rounds (inputs : list string) (templates : list pyval)
  : list event :=
  List.concat (zip_with round inputs templates).

(** A compiled program that heads its template with the requirement. *)
Definition program_sample : compiled_program :=
  {| run_program := fun requirements =>
       Ok {| _store := [("template", PStr ("# " ++ requirements))];
             _input_keys := None |};
     program_state := "{}";
     history := [[PStr "system"; PStr "user"]] |}.

Definition machine_requirements : machine :=
  {| disk := one_file requirements_path
               (trainset_text [ex_scored]);
     trace := [] |}.


(** An answer whose [tone_score] is not a number. *)
Definition answer_audio_nan : audio_assistant.AssessTemplateQuality :=
  {| audio_assistant.general_score := Some 1%float;
     audio_assistant.tone_score := Some nan;
     audio_assistant.scenario_alignment_score := Some 1%float;
     audio_assistant.audience_match_score := Some 0.5%float;
     audio_assistant.language_consistency_score := Some 0.25%float;
     audio_assistant.language_appropriateness_score := Some 0.75%float;
     audio_assistant.rationale := Some "No tone." |}.

Definition judge_audio_nan (lm : string) (kwargs : list (string * pyval))
  : result audio_assistant.AssessTemplateQuality := Ok answer_audio_nan.

(** *** [apps/audio_assistant.py]: [dump_prompt] *)

(** [import pprint] binds the name [pprint] to the module.  The first and
    the last print go through [pprint.pprint]; line 208 calls the name
    [pprint] itself, and a module is not callable.  [history] is what
    [GLOBAL_HISTORY] holds at the call. *)
Definition dump_prompt (history : list (list pyval)) : Script (list pyval) :=
  _ <<- emit (PPrinted (PrStr ("prompt: " ++ hashes 300))) ;;
  messages <<- match last history with
               | Some messages => sret messages
               | None => sfail IndexError
               end ;;
  _ <<- of_result (A := unit)
          (Raise (TypeError "'module' object is not callable")) ;;
  _ <<- emit (PPrinted (PrStr (hashes 300))) ;;
  sret messages.

(** * Properties *)

(** ** The decoder on sample texts *)

Example json_loads_object :
  json_loads ("{" ++ quoted "a" ++ ": [1, -2.5e3, true, null], "
              ++ quoted "b" ++ " : " ++ quoted "x\nyé" ++ "}")
  = Ok (PDict [("a", PList [PInt 1; PFloat "-2.5e3"; PBool true; PNone]);
               ("b", PStr ("x" ++ String LF ("y" ++ String "195" (String "169" ""))))]).
Proof. vm_compute. reflexivity. Qed.

Example json_loads_repeated_key :
  json_loads ("{" ++ quoted "a" ++ ": 1, " ++ quoted "b" ++ ": 2, "
              ++ quoted "a" ++ ": 3}")
  = Ok (PDict [("a", PInt 3); ("b", PInt 2)]).
Proof. vm_compute. reflexivity. Qed.

Example json_loads_numbers :
  json_loads "[0, -0, 12, -Infinity, NaN, 1E5, 0.5]"
  = Ok (PList [PInt 0; PInt 0; PInt 12; PFloat "-Infinity"; PFloat "NaN";
               PFloat "1E5"; PFloat "0.5"]).
Proof. vm_compute. reflexivity. Qed.

Example json_loads_leading_zero :
  json_loads "01" = Raise (JSONDecodeError "Extra data" "01" 1).
Proof. vm_compute. reflexivity. Qed.

Example json_loads_blank_line :
  json_loads (String LF "")
  = Raise (JSONDecodeError "Expecting value" (String LF "") 1).
Proof. vm_compute. reflexivity. Qed.

Example json_loads_open_object :
  json_loads ("{" ++ quoted "a" ++ ": 1")
  = Raise (JSONDecodeError "Expecting ',' delimiter"
             ("{" ++ quoted "a" ++ ": 1") 7).
Proof. vm_compute. reflexivity. Qed.

Example load_line_not_an_object :
  load_line default_input_keys "[1, 2]"
  = Raise (TypeError "argument after ** must be a mapping").
Proof. vm_compute. reflexivity. Qed.

Example json_dumps_sample :
  json_dumps (toDict ex_scored)
  = "{" ++ quoted "requirements" ++ ": " ++ quoted "weekly report" ++ ", "
    ++ quoted "weight" ++ ": 0.75, " ++ quoted "rounds" ++ ": 3, "
    ++ quoted "checked" ++ ": true}".
Proof. vm_compute. reflexivity. Qed.

Example iter_lines_sample :
  iter_lines ("a" ++ String CR (String LF ("b" ++ String CR ("c" ++ String LF "d"))))
  = ["a" ++ String LF ""; "b" ++ String LF ""; "c" ++ String LF ""; "d"].
Proof. vm_compute. reflexivity. Qed.

(** ** Texts *)

Lemma string_app_assoc (a b c : string) : (a ++ b) ++ c = a ++ (b ++ c).
Proof. induction a as [|x a IH]; simpl; [reflexivity | now rewrite IH]. Qed.

Lemma string_app_nil_r (a : string) : a ++ "" = a.
Proof. induction a as [|x a IH]; simpl; [reflexivity | now rewrite IH]. Qed.

Lemma string_length_app (a b : string) :
  String.length (a ++ b) = String.length a + String.length b.
Proof. induction a as [|x a IH]; simpl; [reflexivity | now rewrite IH]. Qed.

(** Every character is one of the 256 bytes. *)
Ltac each_char c := destruct c as [[|] [|] [|] [|] [|] [|] [|] [|]].

Lemma escape_char_cons (c : ascii) : exists x r, escape_char c = String x r.
Proof. each_char c; vm_compute; eauto. Qed.

Lemma escape_tail_cons (s rest : string) :
  exists x r, escape s ++ String dquote rest = String x r.
Proof.
  destruct s as [|c s]; simpl; [eauto|].
  destruct (escape_char_cons c) as (x & r & ->). simpl. eauto.
Qed.

Lemma scanstring_escape_char (c x : ascii) (begin r : string) :
  scanstring begin (escape_char c ++ String x r)
  = jprepend (String c "") (scanstring begin (String x r)).
Proof. each_char c; reflexivity. Qed.

Lemma scanstring_escape (s begin rest : string) :
  scanstring begin (escape s ++ String dquote rest) = JOk (s, rest).
Proof.
  induction s as [|c s IH]; [reflexivity|].
  simpl escape. rewrite string_app_assoc.
  destruct (escape_tail_cons s rest) as (x & r & E).
  rewrite E in *. rewrite scanstring_escape_char, IH. reflexivity.
Qed.

(** *** Numbers *)

Lemma span_digits_stop (s : string) :
  match s with "" => True | String c _ => is_digit c = false end ->
  span_digits s = ("", s).
Proof. destruct s as [|c s]; simpl; [reflexivity | now intros ->]. Qed.

Lemma num_end_no_digit (rest : string) :
  num_end rest = true ->
  match rest with "" => True | String c _ => is_digit c = false end.
Proof.
  destruct rest as [|c r]; simpl; [easy|].
  destruct (is_digit c); simpl; [discriminate | reflexivity].
Qed.

Lemma span_digits_app (a rest ds r : string) :
  span_digits a = (ds, r) ->
  (r = "" -> num_end rest = true) ->
  span_digits (a ++ rest) = (ds, r ++ rest).
Proof.
  revert ds r. induction a as [|c a IH]; simpl; intros ds r E H.
  - injection E as <- <-. apply span_digits_stop, num_end_no_digit; auto.
  - destruct (is_digit c).
    + destruct (span_digits a) as [ds' r'] eqn:Ea. injection E as <- <-.
      now rewrite (IH _ _ eq_refl H).
    + now injection E as <- <-.
Qed.

Lemma match_integer_app (a rest ip r : string) :
  match_integer a = Some (ip, r) ->
  (r = "" -> num_end rest = true) ->
  match_integer (a ++ rest) = Some (ip, r ++ rest).
Proof.
  destruct a as [|c a]; simpl; [discriminate|]. intros E H.
  destruct (Ascii.eqb c "0"); [now injection E as <- <-|].
  destruct (is_digit c); [|discriminate].
  destruct (span_digits a) as [ds r'] eqn:Ea. injection E as <- <-.
  now rewrite (span_digits_app _ _ _ _ Ea H).
Qed.

Lemma match_exp_app (a rest ex : string) :
  match_exp a = (ex, "") ->
  num_end rest = true ->
  match_exp (a ++ rest) = (ex, rest).
Proof.
  intros E H. destruct a as [|e a].
  - injection E as <-. simpl. destruct rest as [|c rest]; [reflexivity|].
    simpl in *. destruct (is_digit c), (Ascii.eqb c "."), (Ascii.eqb c "e"),
      (Ascii.eqb c "E"); simpl in *; congruence.
  - simpl in *. destruct (Ascii.eqb e "e" || Ascii.eqb e "E"); [|discriminate].
    destruct a as [|g a]; [simpl in E; discriminate|].
    simpl. destruct (Ascii.eqb g "+" || Ascii.eqb g "-").
    + destruct (span_digits a) as [ds r2] eqn:Ea.
      destruct ds; [discriminate|]. injection E as <- ->.
      now rewrite (span_digits_app _ _ _ _ Ea (fun _ => H)).
    + destruct (span_digits (String g a)) as [ds r2] eqn:Ea.
      destruct ds; [discriminate|]. injection E as <- ->.
      change (String g (a ++ rest)) with (String g a ++ rest).
      now rewrite (span_digits_app _ _ _ _ Ea (fun _ => H)).
Qed.

Lemma match_frac_app (a rest fr r ex : string) :
  match_frac a = (fr, r) ->
  match_exp r = (ex, "") ->
  num_end rest = true ->
  match_frac (a ++ rest) = (fr, r ++ rest).
Proof.
  intros E Ex H. destruct a as [|c a].
  - injection E as <- <-. simpl. destruct rest as [|x rest]; [reflexivity|].
    simpl in *. destruct (is_digit x), (Ascii.eqb x "."); simpl in *; congruence.
  - simpl in *. destruct (Ascii.eqb c ".") eqn:Ec.
    + destruct (span_digits a) as [ds r'] eqn:Ea.
      rewrite (span_digits_app _ _ _ _ Ea (fun _ => H)).
      destruct ds.
      * injection E as <- <-. simpl in Ex.
        apply Ascii.eqb_eq in Ec. subst c. simpl in Ex. discriminate.
      * now injection E as <- <-.
    + now injection E as <- <-.
Qed.

Lemma match_number_app (lit rest t : string) (isf : bool) :
  match_number lit = Some (t, isf, "") ->
  num_end rest = true ->
  match_number (lit ++ rest) = Some (t, isf, rest).
Proof.
  unfold match_number. intros E H.
  assert (Htail : forall s1 sign,
    match match_integer s1 with
    | Some (ip, s2) =>
        let '(fr, s3) := match_frac s2 in
        let '(ex, s4) := match_exp s3 in
        Some (sign ++ ip ++ fr ++ ex,
              negb (String.eqb fr "" && String.eqb ex ""), s4)
    | None => None
    end = Some (t, isf, "") ->
    match match_integer (s1 ++ rest) with
    | Some (ip, s2) =>
        let '(fr, s3) := match_frac s2 in
        let '(ex, s4) := match_exp s3 in
        Some (sign ++ ip ++ fr ++ ex,
              negb (String.eqb fr "" && String.eqb ex ""), s4)
    | None => None
    end = Some (t, isf, rest)).
  { intros s1 sign E1.
    destruct (match_integer s1) as [[ip s2]|] eqn:Ei; [|discriminate].
    destruct (match_frac s2) as [fr s3] eqn:Ef.
    destruct (match_exp s3) as [ex s4] eqn:Ee.
    injection E1 as <- <- ->.
    assert (H2 : s2 = "" -> num_end rest = true) by auto.
    rewrite (match_integer_app _ _ _ _ Ei H2).
    rewrite (match_frac_app _ _ _ _ _ Ef Ee H).
    rewrite (match_exp_app _ _ _ Ee H). reflexivity. }
  destruct lit as [|c l].
  - simpl in E. discriminate.
  - simpl. destruct (Ascii.eqb c "-").
    + apply Htail, E.
    + apply (Htail (String c l)), E.
Qed.

Lemma span_digits_uint (d : uint) :
  span_digits (NilEmpty.string_of_uint d) = (NilEmpty.string_of_uint d, "").
Proof. induction d; simpl; [reflexivity | rewrite IHd; reflexivity ..]. Qed.

Lemma unorm_pos_to_uint (p : positive) : unorm (Pos.to_uint p) = Pos.to_uint p.
Proof.
  rewrite <- (DecimalPos.Unsigned.to_of (Pos.to_uint p)).
  now rewrite DecimalPos.Unsigned.of_to.
Qed.

Lemma pos_to_uint_head (p : positive) :
  match Pos.to_uint p with
  | Nil | D0 _ => False
  | _ => True
  end.
Proof.
  pose proof (unorm_pos_to_uint p) as U.
  pose proof (DecimalPos.Unsigned.to_uint_nonzero p) as Z.
  destruct (Pos.to_uint p) as [|d| | | | | | | | |] eqn:E; try exact I.
  - discriminate U.
  - rewrite unorm_D0 in U. unfold unorm in U.
    destruct (nzhead d) eqn:N; try discriminate U.
    + injection U as <-. now apply Z.
    + exfalso. now apply (nzhead_nonzero d u).
Qed.

Lemma match_number_uint (p : positive) :
  match_number (NilEmpty.string_of_uint (Pos.to_uint p))
  = Some (NilEmpty.string_of_uint (Pos.to_uint p), false, "").
Proof.
  pose proof (pos_to_uint_head p) as H.
  destruct (Pos.to_uint p) as [|d|d|d|d|d|d|d|d|d|d]; try contradiction;
    unfold match_number; simpl; rewrite span_digits_uint; simpl;
    now rewrite string_app_nil_r.
Qed.

Lemma match_number_int_repr (n : Z) :
  match_number (int_repr n) = Some (int_repr n, false, "").
Proof.
  destruct n as [|p|p]; [reflexivity| |].
  - apply match_number_uint.
  - unfold int_repr. simpl.
    pose proof (pos_to_uint_head p) as H.
    destruct (Pos.to_uint p) as [|d|d|d|d|d|d|d|d|d|d]; try contradiction;
      unfold match_number; simpl; rewrite span_digits_uint; simpl;
      now rewrite string_app_nil_r.
Qed.

Lemma int_of_text_repr (n : Z) : int_of_text (int_repr n) = n.
Proof.
  unfold int_of_text, int_repr. rewrite NilEmpty.isi. apply DecimalZ.of_to.
Qed.

Lemma all_chars_app (p : ascii -> bool) (a b : string) :
  all_chars p (a ++ b) = all_chars p a && all_chars p b.
Proof.
  induction a as [|c a IH]; simpl; [reflexivity|].
  rewrite IH. now destruct (p c).
Qed.

Lemma all_chars_impl (p p' : ascii -> bool) (s : string) :
  (forall c, p c = true -> p' c = true) ->
  all_chars p s = true -> all_chars p' s = true.
Proof.
  intros Hp. induction s as [|c s IH]; simpl; [easy|].
  intros [Hc Hs]%andb_prop. rewrite (Hp _ Hc). simpl. auto.
Qed.

Lemma span_digits_spec (s ds r : string) :
  span_digits s = (ds, r) -> s = ds ++ r /\ all_chars is_digit ds = true.
Proof.
  revert ds r. induction s as [|c s IH]; simpl; intros ds r E.
  - now injection E as <- <-.
  - destruct (is_digit c) eqn:Ec.
    + destruct (span_digits s) as [ds' r'] eqn:Es. injection E as <- <-.
      destruct (IH _ _ eq_refl) as [-> H]. simpl. now rewrite Ec, H.
    + now injection E as <- <-.
Qed.

Lemma is_digit_number_char (c : ascii) :
  is_digit c = true -> number_char c = true.
Proof. unfold number_char. now intros ->. Qed.

Lemma match_integer_spec (s ip r : string) :
  match_integer s = Some (ip, r) ->
  s = ip ++ r /\ all_chars is_digit ip = true
  /\ exists c t, ip = String c t.
Proof.
  destruct s as [|c s]; simpl; [discriminate|].
  destruct (Ascii.eqb c "0") eqn:E0.
  - apply Ascii.eqb_eq in E0. subst c. intros [= <- <-]. simpl. eauto.
  - destruct (is_digit c) eqn:Ec; [|discriminate].
    destruct (span_digits s) as [ds r'] eqn:Es. intros [= <- <-].
    destruct (span_digits_spec _ _ _ Es) as [-> H]. simpl.
    rewrite Ec, H. eauto.
Qed.

Lemma match_frac_spec (s fr r : string) :
  match_frac s = (fr, r) -> s = fr ++ r /\ all_chars number_char fr = true.
Proof.
  destruct s as [|c s]; simpl; [now intros [= <- <-]|].
  destruct (Ascii.eqb c ".") eqn:Ec; [|now intros [= <- <-]].
  destruct (span_digits s) as [ds r'] eqn:Es.
  destruct (span_digits_spec _ _ _ Es) as [-> H].
  destruct ds; intros [= <- <-]; [easy|]. split; [reflexivity|].
  apply Ascii.eqb_eq in Ec. subst c.
  change (all_chars number_char (String a ds) = true).
  eapply all_chars_impl; [apply is_digit_number_char | exact H].
Qed.

Lemma match_exp_spec (s ex r : string) :
  match_exp s = (ex, r) -> s = ex ++ r /\ all_chars number_char ex = true.
Proof.
  destruct s as [|e s]; simpl; [now intros [= <- <-]|].
  destruct (Ascii.eqb e "e" || Ascii.eqb e "E") eqn:Ee; [|now intros [= <- <-]].
  assert (He : number_char e = true).
  { unfold number_char. destruct (Ascii.eqb e "e"), (Ascii.eqb e "E");
      simpl in *; try discriminate; now rewrite ?orb_true_r. }
  destruct s as [|g s].
  - simpl. now intros [= <- <-].
  - destruct (Ascii.eqb g "+" || Ascii.eqb g "-") eqn:Eg.
    + destruct (span_digits s) as [ds r'] eqn:Es.
      destruct (span_digits_spec _ _ _ Es) as [-> H].
      apply (all_chars_impl _ _ _ is_digit_number_char) in H.
      assert (Hg : number_char g = true).
      { unfold number_char. destruct (Ascii.eqb g "+"), (Ascii.eqb g "-");
          simpl in *; try discriminate; now rewrite ?orb_true_r. }
      destruct ds; intros [= <- <-]; [easy|]. split; [reflexivity|].
      simpl in *. now rewrite He, Hg, H.
    + destruct (span_digits (String g s)) as [ds r'] eqn:Es.
      destruct (span_digits_spec _ _ _ Es) as [E' H].
      apply (all_chars_impl _ _ _ is_digit_number_char) in H.
      destruct ds; intros [= <- <-]; [easy|]. split.
      * simpl. now rewrite E'.
      * simpl in *. now rewrite He, H.
Qed.

Lemma match_number_spec (s t r : string) (isf : bool) :
  match_number s = Some (t, isf, r) ->
  s = t ++ r /\ all_chars number_char t = true
  /\ exists c t', t = String c t' /\ (c = "-"%char \/ is_digit c = true).
Proof.
  unfold match_number. intros E.
  destruct s as [|c s]; [discriminate|].
  assert (Hbody : forall s1 t1,
    match match_integer s1 with
    | Some (ip, s2) =>
        let '(fr, s3) := match_frac s2 in
        let '(ex, s4) := match_exp s3 in
        Some (t1 ip fr ex, negb (String.eqb fr "" && String.eqb ex ""), s4)
    | None => None
    end = Some (t, isf, r) ->
    exists ip fr ex, t = t1 ip fr ex /\ s1 = ip ++ fr ++ ex ++ r
      /\ all_chars number_char (ip ++ fr ++ ex) = true
      /\ exists c t', ip = String c t' /\ is_digit c = true).
  { intros s1 t1 E1.
    destruct (match_integer s1) as [[ip s2]|] eqn:Ei; [|discriminate].
    destruct (match_frac s2) as [fr s3] eqn:Ef.
    destruct (match_exp s3) as [ex s4] eqn:Ee.
    injection E1 as <- <- <-.
    destruct (match_integer_spec _ _ _ Ei) as (-> & Hi & x & t' & ->).
    destruct (match_frac_spec _ _ _ Ef) as (-> & Hf).
    destruct (match_exp_spec _ _ _ Ee) as (-> & He).
    exists (String x t'), fr, ex. repeat split.
    - rewrite !all_chars_app, Hf, He.
      rewrite (all_chars_impl is_digit number_char _ is_digit_number_char Hi).
      reflexivity.
    - exists x, t'. split; [reflexivity|].
      simpl in Hi. now apply andb_prop in Hi as [-> _]. }
  simpl in E. destruct (Ascii.eqb c "-") eqn:Ec.
  - apply Ascii.eqb_eq in Ec. subst c.
    apply (Hbody s (fun ip fr ex => "-" ++ ip ++ fr ++ ex)) in E.
    destruct E as (ip & fr & ex & -> & -> & Hall & _).
    repeat split.
    + simpl. now rewrite !string_app_assoc.
    + simpl. exact Hall.
    + exists "-"%char, (ip ++ fr ++ ex). auto.
  - apply (Hbody (String c s) (fun ip fr ex => "" ++ ip ++ fr ++ ex)) in E.
    destruct E as (ip & fr & ex & -> & E' & Hall & c' & t' & -> & Hc').
    repeat split.
    + simpl. rewrite E'. simpl. now rewrite !string_app_assoc.
    + exact Hall.
    + exists c', (t' ++ fr ++ ex). auto.
Qed.

(** *** [scan_once] on the texts [json_dumps] writes *)

Lemma scan_once_number (f : nat) (s t r : string) (isf : bool) :
  match_number s = Some (t, isf, r) ->
  scan_once (S f) s = JOk (number_value t isf, r).
Proof.
  intros E. destruct s as [|c s]; [discriminate|].
  each_char c; try (exfalso; vm_compute in E; discriminate);
    try (cbn -[match_number]; rewrite E; reflexivity).
  destruct s as [|c2 s]; [discriminate|].
  each_char c2; try (exfalso; simpl in E; discriminate);
    cbn -[match_number]; rewrite E; reflexivity.
Qed.

(** Induction on values, with the items of lists and dictionaries. *)
Lemma pyval_nested_ind (P : pyval -> Prop) :
  P PNone ->
  (forall b, P (PBool b)) ->
  (forall n, P (PInt n)) ->
  (forall lit, P (PFloat lit)) ->
  (forall s, P (PStr s)) ->
  (forall items, Forall P items -> P (PList items)) ->
  (forall pairs, Forall (fun kv => P (snd kv)) pairs -> P (PDict pairs)) ->
  forall v, P v.
Proof.
  intros HN HB HI HF HS HL HD.
  fix IH 1. intros [| b | n | lit | s | items | pairs].
  - exact HN.
  - apply HB.
  - apply HI.
  - apply HF.
  - apply HS.
  - apply HL. induction items as [|x xs IHxs]; constructor; [apply IH | exact IHxs].
  - apply HD. induction pairs as [|[k x] xs IHxs]; constructor;
      [apply IH | exact IHxs].
Qed.

Lemma value_start_skip_ws (c : ascii) (r : string) :
  value_start c = true -> skip_ws (String c r) = String c r.
Proof. each_char c; try discriminate; reflexivity. Qed.

Lemma scan_once_open_list (f : nat) (c : ascii) (r : string) :
  value_start c = true ->
  scan_once (S f) (String "[" (String c r)) = parse_items f (String c r) [].
Proof. each_char c; try discriminate; reflexivity. Qed.

Lemma float_literal_cases (lit : string) :
  float_literal lit = true ->
  lit = "NaN" \/ lit = "Infinity" \/ lit = "-Infinity"
  \/ match_number lit = Some (lit, true, "").
Proof.
  unfold float_literal. intros H.
  destruct (String.eqb_spec lit "NaN") as [E|_]; [now left|].
  destruct (String.eqb_spec lit "Infinity") as [E|_]; [now right; left|].
  destruct (String.eqb_spec lit "-Infinity") as [E|_];
    [now right; right; left|].
  simpl in H. right. right. right.
  destruct (match_number lit) as [[[t [|]] [|]]|] eqn:E; try discriminate.
  destruct (match_number_spec _ _ _ _ E) as (Hl & _).
  rewrite string_app_nil_r in Hl. now subst t.
Qed.

(** The text of a value is not empty and starts as a value does. *)
Lemma json_dumps_start (v : pyval) :
  wf_val v = true ->
  exists c r, json_dumps v = String c r /\ value_start c = true.
Proof.
  destruct v as [| [|] | n | lit | s | items | pairs]; simpl; intros W;
    try (do 2 eexists; split; [reflexivity | reflexivity]).
  - destruct (match_number_spec _ _ _ _ (match_number_int_repr n))
      as (_ & _ & c & t & -> & Hc).
    exists c, t. split; [reflexivity|].
    destruct Hc as [-> | Hc]; [reflexivity|]. unfold value_start. now rewrite Hc.
  - destruct (float_literal_cases _ W) as [->|[->|[->|E]]];
      try (do 2 eexists; split; [reflexivity | reflexivity]).
    destruct (match_number_spec _ _ _ _ E) as (_ & _ & c & t & E' & Hc).
    exists c, t. split; [exact E'|].
    destruct Hc as [-> | Hc]; [reflexivity|]. unfold value_start. now rewrite Hc.
Qed.

Lemma concat_cons2 (sep x y : string) (l : list string) :
  String.concat sep (x :: y :: l) = x ++ sep ++ String.concat sep (y :: l).
Proof. reflexivity. Qed.

Lemma parse_items_step (f : nat) (s : string) (acc : list pyval) :
  parse_items (S f) s acc
  = jbind (scan_once f s) (fun q =>
      let acc' := (acc ++ [fst q])%list in
      let r3 := skip_ws (snd q) in
      match r3 with
      | String "]" r4 => JOk (PList acc', r4)
      | String "," r4 => parse_items f (skip_ws r4) acc'
      | _ => JErr "Expecting ',' delimiter" r3
      end).
Proof. reflexivity. Qed.

Lemma parse_items_last (f : nat) (x : pyval) (acc : list pyval) (rest : string) :
  scans x -> 2 * String.length (json_dumps x) <= f ->
  parse_items (S f) (json_dumps x ++ String "]" rest) acc
  = JOk (PList (acc ++ [x]), rest).
Proof.
  intros Sx Hf. rewrite parse_items_step, Sx; [reflexivity | exact Hf | reflexivity].
Qed.

Lemma parse_items_more (f : nat) (x : pyval) (acc : list pyval)
  (c : ascii) (r : string) :
  scans x -> 2 * String.length (json_dumps x) <= f ->
  value_start c = true ->
  parse_items (S f) (json_dumps x ++ String "," (String " " (String c r))) acc
  = parse_items f (String c r) (acc ++ [x]).
Proof.
  intros Sx Hf Hc. rewrite parse_items_step, Sx; [| exact Hf | reflexivity].
  cbn [jbind fst snd]. cbv zeta.
  change (skip_ws (String "," ?t)) with (String "," t). cbv iota beta.
  change (skip_ws (String " " ?t)) with (skip_ws t).
  now rewrite value_start_skip_ws.
Qed.

(** The items of a list, once the first one has been reached. *)
Lemma parse_items_ok (xs : list pyval) :
  Forall (fun x => wf_val x = true /\ scans x) xs ->
  xs <> [] ->
  forall (f : nat) (acc : list pyval) (rest : string),
    2 * String.length (String.concat ", " (map json_dumps xs)) + 1 <= f ->
    parse_items f (String.concat ", " (map json_dumps xs) ++ String "]" rest) acc
    = JOk (PList (acc ++ xs), rest).
Proof.
  induction xs as [|x xs IH]; [easy|]. intros HF _ f acc rest Hf.
  inversion HF as [|? ? [Wx Sx] HF']; subst.
  destruct f as [|f]; [lia|].
  destruct xs as [|y ys].
  - simpl in *. apply parse_items_last; [exact Sx | lia].
  - change (map json_dumps (x :: y :: ys))
      with (json_dumps x :: map json_dumps (y :: ys)) in *.
    assert (Hs : exists c r,
      String.concat ", " (map json_dumps (y :: ys)) ++ String "]" rest
      = String c r /\ value_start c = true).
    { inversion HF' as [|? ? [Wy _] _]; subst.
      destruct (json_dumps_start _ Wy) as (c & r & E & Hc).
      destruct ys; simpl; rewrite E; simpl; eauto. }
    destruct Hs as (c & r & Es & Hc).
    change (map json_dumps (y :: ys))
      with (json_dumps y :: map json_dumps ys) in Hf |- *.
    rewrite concat_cons2 in Hf |- *.
    change (json_dumps y :: map json_dumps ys)
      with (map json_dumps (y :: ys)) in Hf |- *.
    rewrite !string_app_assoc. rewrite !string_length_app in Hf.
    change (", " ++ ?t) with (String "," (String " " t)).
    rewrite Es. rewrite parse_items_more; [| exact Sx | lia | exact Hc].
    rewrite <- Es. change (String.length ", ") with 2 in Hf.
    rewrite IH; [| exact HF' | easy | lia].
    now rewrite <- app_assoc.
Qed.

Lemma parse_members_step (f : nat) (r : string) (acc : list (string * pyval)) :
  parse_members (S f) (String dquote r) acc
  = jbind (scanstring (String dquote r) r) (fun p =>
      let key := fst p in
      let r1 := skip_ws (snd p) in
      match r1 with
      | String ":" r2 =>
          jbind (scan_once f (skip_ws r2)) (fun q =>
            let acc' := dict_set key (fst q) acc in
            let r3 := skip_ws (snd q) in
            match r3 with
            | String "}" r4 => JOk (PDict acc', r4)
            | String "," r4 => parse_members f (skip_ws r4) acc'
            | _ => JErr "Expecting ',' delimiter" r3
            end)
      | _ => JErr "Expecting ':' delimiter" r1
      end).
Proof. reflexivity. Qed.

Lemma member_text_app (k : string) (x : pyval) (t : string) :
  member_text (k, x) ++ t
  = String dquote (escape k ++ String dquote
      (String ":" (String " " (json_dumps x ++ t)))).
Proof.
  unfold member_text, py_encode_basestring. simpl.
  now rewrite !string_app_assoc.
Qed.

Lemma parse_members_key (f : nat) (k : string) (x : pyval)
  (acc : list (string * pyval)) (t : string) :
  wf_val x = true -> scans x -> 2 * String.length (json_dumps x) <= f ->
  num_end t = true ->
  parse_members (S f) (member_text (k, x) ++ t) acc
  = (let acc' := dict_set k x acc in
     let r3 := skip_ws t in
     match r3 with
     | String "}" r4 => JOk (PDict acc', r4)
     | String "," r4 => parse_members f (skip_ws r4) acc'
     | _ => JErr "Expecting ',' delimiter" r3
     end).
Proof.
  intros Wx Sx Hf Ht. rewrite member_text_app, parse_members_step.
  rewrite scanstring_escape. cbn [jbind fst snd]. cbv zeta.
  change (skip_ws (String ":" ?u)) with (String ":" u). cbv iota beta.
  change (skip_ws (String " " ?u)) with (skip_ws u).
  destruct (json_dumps_start _ Wx) as (c & r & E & Hc).
  assert (Hsk : skip_ws (json_dumps x ++ t) = json_dumps x ++ t).
  { rewrite E. simpl. now apply value_start_skip_ws. }
  rewrite Hsk, Sx; [reflexivity | exact Hf | exact Ht].
Qed.

Lemma dict_set_fresh {V} (k : string) (v : V) (d : list (string * V)) :
  k ∉ map fst d -> dict_set k v d = (d ++ [(k, v)])%list.
Proof.
  induction d as [|[k' v'] d IH]; simpl; [reflexivity|].
  intros [Hne Hd]%not_elem_of_cons.
  destruct (String.eqb_spec k k') as [E|_]; [contradiction|].
  now rewrite IH.
Qed.

(** The members of a dictionary, once the first key has been reached. *)
Lemma parse_members_ok (kvs : list (string * pyval)) :
  Forall (fun kv => wf_val (snd kv) = true /\ scans (snd kv)) kvs ->
  kvs <> [] ->
  forall (f : nat) (acc : list (string * pyval)) (rest : string),
    NoDup (map fst (acc ++ kvs)) ->
    2 * String.length (String.concat ", " (map member_text kvs)) + 1 <= f ->
    parse_members f
      (String.concat ", " (map member_text kvs) ++ String "}" rest) acc
    = JOk (PDict (acc ++ kvs), rest).
Proof.
  induction kvs as [|[k x] kvs IH]; [easy|]. intros HF _ f acc rest ND Hf.
  inversion HF as [|? ? [Wx Sx] HF']; subst. simpl in Wx, Sx.
  destruct f as [|f]; [lia|].
  assert (Hk : k ∉ map fst acc).
  { rewrite map_app in ND. simpl in ND.
    apply NoDup_app in ND as (_ & ND & _). intros Hin.
    apply (ND _ Hin). constructor. }
  assert (Hx : String.length (member_text (k, x))
               = String.length (json_dumps x) + (String.length (escape k) + 4)).
  { unfold member_text, py_encode_basestring. simpl.
    rewrite !string_length_app. simpl. lia. }
  destruct kvs as [|[k2 y] kvs].
  - change (String.concat ", " (map member_text [(k, x)]))
      with (member_text (k, x)) in Hf |- *.
    rewrite parse_members_key; [| exact Wx | exact Sx | lia | reflexivity].
    cbv zeta. change (skip_ws (String "}" ?u)) with (String "}" u). cbv iota beta.
    now rewrite dict_set_fresh.
  - change (map member_text ((k, x) :: (k2, y) :: kvs))
      with (member_text (k, x) :: member_text (k2, y) :: map member_text kvs) in *.
    rewrite concat_cons2 in Hf |- *.
    change (member_text (k2, y) :: map member_text kvs)
      with (map member_text ((k2, y) :: kvs)) in Hf |- *.
    rewrite !string_app_assoc. rewrite !string_length_app in Hf.
    change (String.length ", ") with 2 in Hf.
    change (", " ++ ?t) with (String "," (String " " t)).
    rewrite parse_members_key; [| exact Wx | exact Sx | lia | reflexivity].
    cbv zeta. change (skip_ws (String "," ?u)) with (String "," u). cbv iota beta.
    change (skip_ws (String " " ?u)) with (skip_ws u).
    assert (Hs : skip_ws (String.concat ", " (map member_text ((k2, y) :: kvs))
                          ++ String "}" rest)
                 = String.concat ", " (map member_text ((k2, y) :: kvs))
                   ++ String "}" rest).
    { destruct kvs; simpl; reflexivity. }
    rewrite Hs, dict_set_fresh by exact Hk.
    rewrite IH; [now rewrite <- app_assoc | exact HF' | easy | | lia].
    now rewrite <- app_assoc.
Qed.

Lemma scan_once_open_dict (f : nat) (r : string) :
  scan_once (S f) (String "{" (String dquote r))
  = parse_members f (String dquote r) [].
Proof. reflexivity. Qed.

Lemma wf_items (P : pyval -> Prop) (items : list pyval) :
  Forall (fun x => wf_val x = true -> P x) items ->
  forallb wf_val items = true ->
  Forall (fun x => wf_val x = true /\ P x) items.
Proof.
  induction 1 as [|x xs Hx _ IH]; simpl; [constructor|].
  intros [Wx Wxs]%andb_prop. constructor; auto.
Qed.

Lemma wf_pairs (P : pyval -> Prop) (pairs : list (string * pyval)) :
  Forall (fun kv => wf_val (snd kv) = true -> P (snd kv)) pairs ->
  forallb (fun kv => wf_val (snd kv)) pairs = true ->
  Forall (fun kv => wf_val (snd kv) = true /\ P (snd kv)) pairs.
Proof.
  induction 1 as [|x xs Hx _ IH]; simpl; [constructor|].
  intros [Wx Wxs]%andb_prop. constructor; auto.
Qed.

Lemma json_dumps_dict (pairs : list (string * pyval)) :
  json_dumps (PDict pairs)
  = String "{" (String.concat ", " (map member_text pairs) ++ "}").
Proof. reflexivity. Qed.

Lemma json_dumps_list (items : list pyval) :
  json_dumps (PList items)
  = String "[" (String.concat ", " (map json_dumps items) ++ "]").
Proof. reflexivity. Qed.

(** The scanner reads back every value. *)
Lemma scans_all (v : pyval) : wf_val v = true -> scans v.
Proof.
  induction v as [| b | n | lit | s | items IH | pairs IH]
    using pyval_nested_ind; intros W f rest Hf Hr.
  - destruct f; [simpl in Hf; lia | reflexivity].
  - destruct f; [destruct b; simpl in Hf; lia | now destruct b].
  - destruct (json_dumps_start (PInt n) W) as (c & r & E & _).
    destruct f; [rewrite E in Hf; simpl in Hf; lia|]. simpl json_dumps.
    rewrite (scan_once_number f _ _ _ _
               (match_number_app _ _ _ _ (match_number_int_repr n) Hr)).
    unfold number_value. now rewrite int_of_text_repr.
  - destruct (json_dumps_start (PFloat lit) W) as (c & r & E & _).
    destruct f; [rewrite E in Hf; simpl in Hf; lia|]. simpl json_dumps.
    destruct (float_literal_cases _ W) as [->|[->|[->|E']]]; try reflexivity.
    now rewrite (scan_once_number f _ _ _ _ (match_number_app _ _ _ _ E' Hr)).
  - destruct f; [simpl in Hf; lia|].
    simpl json_dumps. unfold py_encode_basestring. simpl.
    rewrite string_app_assoc. simpl.
    change (scan_once (S f) (String dquote ?r))
      with (jbind (scanstring (String dquote r) r)
              (fun p => JOk (PStr (fst p), snd p))).
    now rewrite scanstring_escape.
  - simpl in W. apply (wf_items scans) in IH; [|exact W].
    rewrite json_dumps_list in Hf |- *.
    destruct f; [simpl in Hf; lia|].
    simpl in Hf. rewrite string_length_app in Hf. simpl in Hf.
    destruct items as [|x xs]; [reflexivity|].
    change (String "[" ?a ++ rest) with (String "[" (a ++ rest)).
    rewrite string_app_assoc. change ("]" ++ rest) with (String "]" rest).
    assert (Hs : exists c r,
      String.concat ", " (map json_dumps (x :: xs)) ++ String "]" rest
      = String c r /\ value_start c = true).
    { inversion IH as [|? ? [Wx _] _]; subst.
      destruct (json_dumps_start _ Wx) as (c & r & E & Hc).
      destruct xs; simpl; rewrite E; simpl; eauto. }
    destruct Hs as (c & r & Es & Hc).
    rewrite Es, (scan_once_open_list f c r Hc), <- Es.
    rewrite (parse_items_ok _ IH); [reflexivity | easy | lia].
  - simpl in W. apply andb_prop in W as [ND W].
    apply bool_decide_eq_true in ND.
    apply (wf_pairs scans) in IH; [|exact W].
    rewrite json_dumps_dict in Hf |- *.
    destruct f; [simpl in Hf; lia|].
    simpl in Hf. rewrite string_length_app in Hf. simpl in Hf.
    destruct pairs as [|[k x] kvs]; [reflexivity|].
    change (String "{" ?a ++ rest) with (String "{" (a ++ rest)).
    rewrite string_app_assoc. change ("}" ++ rest) with (String "}" rest).
    assert (Hs : exists r,
      String.concat ", " (map member_text ((k, x) :: kvs)) ++ String "}" rest
      = String dquote r).
    { destruct kvs; simpl; eauto. }
    destruct Hs as (r & Es).
    rewrite Es, scan_once_open_dict, <- Es.
    rewrite (parse_members_ok _ IH); [reflexivity | easy | exact ND | lia].
Qed.

Lemma strip_prefix_BOM (c : ascii) (r : string) :
  value_start c = true -> strip_prefix BOM (String c r) = None.
Proof. each_char c; try discriminate; reflexivity. Qed.

(** [json.loads] reads back what [json.dumps] wrote, also with the line
    feed that [save_trainset] puts after it. *)
Lemma json_loads_dumps_line (v : pyval) :
  wf_val v = true -> json_loads (json_dumps v ++ String LF "") = Ok v.
Proof.
  intros W. unfold json_loads.
  destruct (json_dumps_start _ W) as (c & r & E & Hc).
  assert (Hs : json_dumps v ++ String LF "" = String c (r ++ String LF ""))
    by now rewrite E.
  rewrite Hs at 1. rewrite strip_prefix_BOM by exact Hc.
  rewrite Hs at 2. rewrite value_start_skip_ws by exact Hc. rewrite <- Hs.
  rewrite (scans_all _ W); [reflexivity | | reflexivity].
  rewrite string_length_app. lia.
Qed.

Lemma json_loads_dumps (v : pyval) :
  wf_val v = true -> json_loads (json_dumps v) = Ok v.
Proof.
  intros W. unfold json_loads.
  destruct (json_dumps_start _ W) as (c & r & E & Hc).
  rewrite E at 1. rewrite strip_prefix_BOM by exact Hc.
  rewrite E at 2. rewrite value_start_skip_ws by exact Hc. rewrite <- E.
  rewrite <- (string_app_nil_r (json_dumps v)) at 2.
  rewrite (scans_all _ W); [reflexivity | lia | reflexivity].
Qed.

(** *** Lines *)

Lemma escape_char_no_break (c : ascii) :
  all_chars no_break (escape_char c) = true.
Proof. each_char c; reflexivity. Qed.

Lemma escape_no_break (s : string) : all_chars no_break (escape s) = true.
Proof.
  induction s as [|c s IH]; [reflexivity|]. simpl.
  now rewrite all_chars_app, escape_char_no_break, IH.
Qed.

Lemma number_char_no_break (c : ascii) :
  number_char c = true -> no_break c = true.
Proof. each_char c; try discriminate; reflexivity. Qed.

Lemma concat_no_break (sep : string) (l : list string) :
  all_chars no_break sep = true ->
  Forall (fun t => all_chars no_break t = true) l ->
  all_chars no_break (String.concat sep l) = true.
Proof.
  intros Hsep. induction 1 as [|x xs Hx Hxs IH]; [reflexivity|].
  destruct xs as [|y ys]; [exact Hx|].
  rewrite concat_cons2, !all_chars_app, Hx, Hsep. exact IH.
Qed.

(** The text of a value has no line break. *)
Lemma json_dumps_no_break (v : pyval) :
  wf_val v = true -> all_chars no_break (json_dumps v) = true.
Proof.
  induction v as [| b | n | lit | s | items IH | pairs IH]
    using pyval_nested_ind; intros W.
  - reflexivity.
  - now destruct b.
  - destruct (match_number_spec _ _ _ _ (match_number_int_repr n)) as (_ & H & _).
    eapply all_chars_impl; [apply number_char_no_break | exact H].
  - destruct (float_literal_cases _ W) as [->|[->|[->|E]]]; try reflexivity.
    destruct (match_number_spec _ _ _ _ E) as (_ & H & _).
    eapply all_chars_impl; [apply number_char_no_break | exact H].
  - simpl. unfold py_encode_basestring. simpl.
    now rewrite all_chars_app, escape_no_break.
  - simpl in W.
    apply (wf_items (fun x => all_chars no_break (json_dumps x) = true) _ IH) in W.
    rewrite json_dumps_list. simpl. rewrite all_chars_app, andb_true_r.
    apply concat_no_break; [reflexivity|].
    apply Forall_map. eapply Forall_impl; [exact W|]. now intros x [_ Hx].
  - simpl in W. apply andb_prop in W as [_ W].
    apply (wf_pairs (fun x => all_chars no_break (json_dumps x) = true) _ IH) in W.
    rewrite json_dumps_dict. simpl. rewrite all_chars_app, andb_true_r.
    apply concat_no_break; [reflexivity|].
    apply Forall_map. eapply Forall_impl; [exact W|]. intros [k x] [_ Hx].
    unfold member_text, py_encode_basestring. cbn [fst snd] in *.
    change (String dquote ?a ++ ?b) with (String dquote (a ++ b)).
    cbn [all_chars]. rewrite !all_chars_app, escape_no_break, Hx. reflexivity.
Qed.

Lemma iter_lines_line (a rest : string) :
  all_chars no_break a = true ->
  iter_lines (a ++ String LF rest) = (a ++ String LF "") :: iter_lines rest.
Proof.
  induction a as [|c a IH]; [reflexivity|]. simpl.
  intros [Hc Ha]%andb_prop. rewrite (IH Ha).
  unfold no_break in Hc. apply negb_true_iff, orb_false_elim in Hc as [-> ->].
  reflexivity.
Qed.

Lemma trainset_text_cons (ex : Example) (trainset : list Example) :
  trainset_text (ex :: trainset)
  = json_dumps (toDict ex) ++ String LF (trainset_text trainset).
Proof.
  unfold trainset_text, record_line. destruct trainset as [|y ys].
  - reflexivity.
  - change (map (fun e => json_dumps (toDict e) ++ String LF "") (ex :: y :: ys))
      with ((json_dumps (toDict ex) ++ String LF "")
            :: (json_dumps (toDict y) ++ String LF "")
            :: map (fun e => json_dumps (toDict e) ++ String LF "") ys).
    rewrite concat_cons2. now rewrite string_app_assoc.
Qed.

(** The lines of the text of a trainset: one per example, in order. *)
Lemma iter_lines_trainset (trainset : list Example) :
  Forall (fun ex => wf_val (toDict ex) = true) trainset ->
  iter_lines (trainset_text trainset) = map record_line trainset.
Proof.
  induction 1 as [|ex xs W _ IH]; [reflexivity|].
  rewrite trainset_text_cons, iter_lines_line, IH; [reflexivity|].
  now apply json_dumps_no_break.
Qed.

(** *** [save_trainset] and [load_trainset], step by step *)

Lemma encodable_line (a : string) :
  encodable (a ++ String LF "") = encodable a.
Proof.
  induction a as [|c a IH]; [reflexivity|].
  change (String c a ++ String LF "") with (String c (a ++ String LF "")).
  cbn [encodable]. rewrite IH. destruct a as [|d a']; [|reflexivity].
  cbn. now rewrite !andb_false_r.
Qed.

Lemma with_file_same (fs : filesystem) (file_path text : string) :
  files fs !! file_path = Some text -> with_file fs file_path text = fs.
Proof.
  intros H. unfold with_file. rewrite insert_id by exact H. now destruct fs.
Qed.

Lemma with_file_twice (fs : filesystem) (file_path text1 text2 : string) :
  with_file (with_file fs file_path text1) file_path text2
  = with_file fs file_path text2.
Proof. unfold with_file. cbn [files unwritable read_error write_error]. now rewrite insert_insert_eq. Qed.

Lemma for_each_write_run (file_path : string) (trainset : list Example)
  (fs : filesystem) (old : string) :
  files fs !! file_path = Some old ->
  Forall (fun ex => encodable (json_dumps (PDict (_store ex))) = true) trainset ->
  for_each trainset (fun ex => write file_path (record_line ex)) fs
  = (Ok tt, with_file fs file_path (old ++ trainset_text trainset)).
Proof.
  intros Hold HF. revert fs old Hold.
  induction HF as [|ex xs He _ IH]; intros fs old Hold.
  - simpl. unfold ret. rewrite string_app_nil_r.
    now rewrite with_file_same by exact Hold.
  - simpl. unfold bind, write at 1. unfold record_line at 1, toDict.
    rewrite encodable_line, He, Hold. cbn [default].
    change {| files := <[file_path := ?t]> (files fs);
              unwritable := unwritable fs; read_error := read_error fs;
     write_error := write_error fs |}
      with (with_file fs file_path t).
    rewrite (IH _ (old ++ json_dumps (PDict (_store ex)) ++ String LF ""))
      by apply lookup_insert_eq.
    rewrite with_file_twice, trainset_text_cons.
    unfold toDict. rewrite !string_app_assoc. reflexivity.
Qed.

Lemma save_trainset_run (trainset : list Example) (file_path : string)
  (fs : filesystem) :
  file_path ∉ unwritable fs ->
  Forall (fun ex => encodable (json_dumps (PDict (_store ex))) = true) trainset ->
  save_trainset trainset file_path fs
  = (Ok tt, with_file fs file_path (trainset_text trainset)).
Proof.
  intros Hw HF. unfold save_trainset, bind, open_w.
  rewrite bool_decide_eq_false_2 by exact Hw.
  change (fun ex => write file_path (json_dumps (toDict ex) ++ String LF ""))
    with (fun ex => write file_path (record_line ex)).
  change {| files := <[file_path := ""]> (files fs);
            unwritable := unwritable fs; read_error := read_error fs;
     write_error := write_error fs |}
    with (with_file fs file_path "").
  rewrite (for_each_write_run _ _ _ "");
    [|apply lookup_insert_eq | exact HF].
  now rewrite with_file_twice.
Qed.

(** [store_text] and [trainset_text] name the same text. *)
Lemma store_text_eq (trainset : list Example) :
  store_text trainset = trainset_text trainset.
Proof. reflexivity. Qed.

Lemma load_trainset_run (file_path text : string)
  (input_keys : option (list string)) (fs : filesystem) :
  files fs !! file_path = Some text ->
  load_trainset file_path input_keys fs
  = (load_lines (default default_input_keys input_keys) (iter_lines text) [],
     fs).
Proof.
  intros H. unfold load_trainset, bind, open_r. now rewrite H.
Qed.

Lemma load_lines_acc (input_keys : list string) (lines : list string)
  (acc : list Example) :
  load_lines input_keys lines acc
  = rbind (load_lines input_keys lines []) (fun l => Ok (acc ++ l)%list).
Proof.
  revert acc. induction lines as [|line lines IH]; intros acc.
  - simpl. now rewrite app_nil_r.
  - simpl. destruct (load_line input_keys line) as [e|e]; [|reflexivity].
    simpl. rewrite (IH (acc ++ [e])%list), (IH [e]).
    destruct (load_lines input_keys lines []) as [l|]; [|reflexivity].
    simpl. now rewrite <- app_assoc.
Qed.

Lemma load_lines_cons (input_keys : list string) (line : string)
  (lines : list string) :
  load_lines input_keys (line :: lines) []
  = rbind (load_line input_keys line) (fun e =>
      rbind (load_lines input_keys lines []) (fun l => Ok (e :: l))).
Proof.
  simpl. destruct (load_line input_keys line) as [e|]; [|reflexivity].
  simpl. now rewrite load_lines_acc.
Qed.

Lemma dict_update_fresh {V} (d kw : list (string * V)) :
  NoDup (map fst (d ++ kw)) -> dict_update d kw = (d ++ kw)%list.
Proof.
  revert d. induction kw as [|[k v] kw IH]; intros d ND; simpl.
  - now rewrite app_nil_r.
  - assert (Hk : k ∉ map fst d).
    { rewrite map_app in ND. apply NoDup_app in ND as (_ & ND & _).
      intros Hin. apply (ND _ Hin). constructor. }
    rewrite dict_set_fresh by exact Hk.
    rewrite IH; rewrite <- app_assoc; [reflexivity | exact ND].
Qed.

Lemma dict_del_absent {V} (k : string) (d : list (string * V)) :
  dict_get k d = None -> dict_del k d = d.
Proof.
  induction d as [|[k' v'] d IH]; simpl; [reflexivity|].
  destruct (String.eqb k k'); [discriminate|]. intros H. now rewrite IH.
Qed.

(** One line of a saved trainset, loaded again. *)
Lemma load_line_record (input_keys : list string) (ex : Example) :
  wf_val (toDict ex) = true -> rebuilds ex = true ->
  load_line input_keys (record_line ex) = Ok (reloaded input_keys ex).
Proof.
  intros W R. unfold load_line, record_line.
  rewrite json_loads_dumps_line by exact W. simpl rbind.
  unfold rebuilds in R. unfold toDict, Example_splat.
  destruct (dict_get "self" (_store ex)); [discriminate|].
  destruct (dict_get "base" (_store ex)) eqn:Eb; [discriminate|].
  simpl. unfold with_inputs, reloaded. f_equal. f_equal.
  rewrite dict_del_absent by exact Eb.
  assert (ND : NoDup (map fst (_store ex))).
  { simpl in W. apply andb_prop in W as [ND _].
    now apply bool_decide_eq_true in ND. }
  unfold Example_copy, Example_init at 1. cbn [_store dict_update].
  unfold Example_init at 2. cbn [_store].
  rewrite (dict_update_fresh [] _ ND). simpl.
  unfold Example_init at 1. cbn [_store].
  rewrite (dict_update_fresh [] _ ND). simpl.
  change (Example_bool {| _store := _store ex; _input_keys := None |})
    with (Example_bool ex).
  apply orb_prop in R as [->|R]; [reflexivity|].
  destruct (_store ex); [|discriminate]. now destruct (Example_bool _).
Qed.

Lemma load_lines_records (input_keys : list string) (trainset : list Example) :
  Forall (fun ex => wf_val (toDict ex) = true /\ rebuilds ex = true) trainset ->
  load_lines input_keys (map record_line trainset) []
  = Ok (map (reloaded input_keys) trainset).
Proof.
  induction 1 as [|ex xs [W R] _ IH]; [reflexivity|].
  change (map record_line (ex :: xs)) with (record_line ex :: map record_line xs).
  now rewrite load_lines_cons, load_line_record, IH.
Qed.

(** Saving and loading again gives the examples back, with the input keys
    declared at load time. *)
Lemma load_after_save (trainset : list Example) (file_path : string)
  (input_keys : option (list string)) (fs : filesystem) :
  file_path ∉ unwritable fs ->
  Forall (fun ex => wf_val (toDict ex) = true /\ rebuilds ex = true) trainset ->
  Forall (fun ex => encodable (json_dumps (PDict (_store ex))) = true) trainset ->
  fst ((save_trainset trainset file_path ;;;
        load_trainset file_path input_keys) fs)
  = Ok (map (reloaded (default default_input_keys input_keys)) trainset).
Proof.
  intros Hw HF He. unfold bind at 1.
  rewrite save_trainset_run by assumption.
  rewrite (load_trainset_run _ (trainset_text trainset))
    by apply lookup_insert_eq.
  simpl. rewrite iter_lines_trainset.
  - now apply load_lines_records.
  - eapply Forall_impl; [exact HF|]. now intros ex [W _].
Qed.

(** *** The loop of [load_trainset] *)

Lemma load_line_input_keys (input_keys : list string) (line : string)
  (e : Example) :
  load_line input_keys line = Ok e ->
  _input_keys e = Some (list_to_set input_keys).
Proof.
  unfold load_line. destruct (json_loads line) as [data|]; [|discriminate].
  simpl. destruct (Example_splat data) as [e0|]; [|discriminate].
  simpl. now intros [= <-].
Qed.

(** The fields of a loaded record do not depend on the declared keys. *)
Lemma load_line_store (k1 k2 : list string) (line : string) (e1 : Example) :
  load_line k1 line = Ok e1 ->
  exists e2, load_line k2 line = Ok e2 /\ _store e1 = _store e2.
Proof.
  unfold load_line. destruct (json_loads line) as [data|]; [|discriminate].
  simpl. destruct (Example_splat data) as [e0|]; [|discriminate].
  simpl. intros [= <-]. eexists. split; reflexivity.
Qed.

Lemma load_line_error (k1 k2 : list string) (line : string) (e : exn) :
  load_line k1 line = Raise e -> load_line k2 line = Raise e.
Proof.
  unfold load_line. destruct (json_loads line) as [data|]; [|easy].
  simpl. destruct (Example_splat data) as [e0|]; [discriminate | easy].
Qed.

Lemma load_lines_input_keys (input_keys : list string) (lines : list string)
  (l : list Example) :
  load_lines input_keys lines [] = Ok l ->
  Forall (fun e => _input_keys e = Some (list_to_set input_keys)) l.
Proof.
  revert l. induction lines as [|line lines IH]; intros l.
  - intros [= <-]. constructor.
  - rewrite load_lines_cons.
    destruct (load_line input_keys line) as [e|] eqn:El; [|discriminate].
    simpl. destruct (load_lines input_keys lines []) as [l'|]; [|discriminate].
    simpl. intros [= <-]. constructor; [|now apply IH].
    eapply load_line_input_keys, El.
Qed.

Lemma load_lines_store (k1 k2 : list string) (lines : list string)
  (l1 : list Example) :
  load_lines k1 lines [] = Ok l1 ->
  exists l2, load_lines k2 lines [] = Ok l2 /\ map _store l1 = map _store l2.
Proof.
  revert l1. induction lines as [|line lines IH]; intros l1.
  - intros [= <-]. exists []. split; reflexivity.
  - rewrite !load_lines_cons.
    destruct (load_line k1 line) as [e1|] eqn:El; [|discriminate].
    destruct (load_line_store k1 k2 _ _ El) as (e2 & -> & Es).
    simpl. destruct (load_lines k1 lines []) as [l'|]; [|discriminate].
    destruct (IH _ eq_refl) as (l2 & -> & Hl).
    simpl. intros [= <-]. exists (e2 :: l2). split; [reflexivity|].
    simpl. now rewrite Es, Hl.
Qed.

Lemma load_lines_first_bad (input_keys : list string) (lines : list string)
  (i j : nat) (e : exn) :
  first_bad input_keys lines i = Some (j, e) ->
  load_lines input_keys lines [] = Raise e
  /\ i <= j
  /\ exists line, lines !! (j - i) = Some line
       /\ load_line input_keys line = Raise e
       /\ forall n l, n < j - i -> lines !! n = Some l ->
            exists ex, load_line input_keys l = Ok ex.
Proof.
  revert i. induction lines as [|line lines IH]; intros i; [discriminate|].
  simpl first_bad. rewrite load_lines_cons.
  destruct (load_line input_keys line) as [ex|e'] eqn:El.
  - intros H. destruct (IH _ H) as (Hl & Hij & l & Hl1 & Hl2 & Hl3).
    rewrite Hl. split; [reflexivity|]. split; [lia|].
    exists l. replace (j - i) with (S (j - S i)) by lia.
    split; [exact Hl1|]. split; [exact Hl2|].
    intros [|n] l0 Hn Hl0.
    + injection Hl0 as <-. eauto.
    + apply (Hl3 n); [lia | exact Hl0].
  - intros [= <- <-]. split; [reflexivity|]. split; [lia|].
    exists line. rewrite Nat.sub_diag. split; [reflexivity|].
    split; [exact El|]. intros n l Hn. lia.
Qed.

Lemma first_bad_exists (input_keys : list string) (lines : list string)
  (i : nat) :
  Exists (fun line => exists e, load_line input_keys line = Raise e) lines ->
  exists j e, first_bad input_keys lines i = Some (j, e).
Proof.
  intros H. revert i. induction H as [line lines [e He] | line lines _ IH];
    intros i; simpl.
  - rewrite He. eauto.
  - destruct (load_line input_keys line); eauto.
Qed.

(** *** The scanner always has fuel *)

















(** ** The trainset store *)

(** C1 (the code departs from the claim).  An example with a field named
    [base] is saved with that field, but loading binds the entry to the
    parameter [base] of [Example.__init__], which ignores a string: the
    record comes back without the field.  An example with a field named
    [self] is saved as well, and loading it raises [TypeError]. *)
Theorem save_load_drops_base_field :
  _store ex_base = [("question", PStr "q"); ("base", PStr "b")]
  /\ fst ((save_trainset [ex_base] "t.jsonl" ;;;
           load_trainset "t.jsonl" None) fs_empty)
     = Ok [{| _store := [("question", PStr "q")];
              _input_keys := Some (list_to_set default_input_keys) |}]
  /\ fst ((save_trainset [ex_self] "t.jsonl" ;;;
           load_trainset "t.jsonl" None) fs_empty)
     = Raise (TypeError "__init__() got multiple values for argument 'self'").
Proof. repeat split; vm_compute; reflexivity. Qed.






(** C7.  Loading a file that exists and is empty returns the empty list
    without raising; and saving the empty trainset to a writable path and
    loading that path returns the empty list. *)
Theorem load_trainset_empty (file_path : string)
  (input_keys : option (list string)) (fs : filesystem) :
  (files fs !! file_path = Some "" ->
   load_trainset file_path input_keys fs = (Ok [], fs))
  /\ (file_path ∉ unwritable fs ->
      fst ((save_trainset [] file_path ;;;
            load_trainset file_path input_keys) fs) = Ok []).
Proof.
  split.
  - intros H. now rewrite (load_trainset_run _ _ _ _ H).
  - intros Hw. rewrite load_after_save; [reflexivity | exact Hw | |];
      constructor.
Qed.

Lemma load_trainset_empty_witness :
  files (one_file "t.jsonl" "") !! "t.jsonl" = Some ""
  /\ load_trainset "t.jsonl" None (one_file "t.jsonl" "")
     = (Ok [], one_file "t.jsonl" "")
  /\ ("t.jsonl" ∉ unwritable (one_file "t.jsonl" "old text"))
  /\ fst ((save_trainset [] "t.jsonl" ;;;
           load_trainset "t.jsonl" None) (one_file "t.jsonl" "old text"))
     = Ok [].
Proof.
  split; [reflexivity|]. split.
  - apply (load_trainset_empty "t.jsonl" None (one_file "t.jsonl" "")).
    reflexivity.
  - split; [apply not_elem_of_empty|].
    apply (load_trainset_empty "t.jsonl" None (one_file "t.jsonl" "old text")).
    apply not_elem_of_empty.
Defined.




(** C10.  Called without [input_keys], [load_trainset] marks exactly
    [question] and [context] as the input keys of every record it returns,
    whatever the fields of the records are. *)
Theorem load_trainset_default_input_keys (file_path : string)
  (fs : filesystem) (loaded : list Example) :
  fst (load_trainset file_path None fs) = Ok loaded ->
  Forall (fun e => _input_keys e = Some {[ "question"; "context" ]}) loaded.
Proof.
  unfold load_trainset, bind, open_r.
  destruct (files fs !! file_path) as [text|]; [|discriminate].
  simpl. intros H. apply load_lines_input_keys in H.
  eapply Forall_impl; [exact H|]. intros e ->. f_equal.
Qed.

Lemma load_trainset_default_input_keys_witness :
  fst (load_trainset "t.jsonl" None
         (one_file "t.jsonl" (trainset_text [ex_scored; ex_qa])))
  = Ok (map (reloaded default_input_keys) [ex_scored; ex_qa])
  /\ Forall (fun e => _input_keys e = Some {[ "question"; "context" ]})
       (map (reloaded default_input_keys) [ex_scored; ex_qa]).
Proof.
  assert (H : fst (load_trainset "t.jsonl" None
                     (one_file "t.jsonl" (trainset_text [ex_scored; ex_qa])))
              = Ok (map (reloaded default_input_keys) [ex_scored; ex_qa]))
    by (vm_compute; reflexivity).
  split; [exact H|].
  exact (load_trainset_default_input_keys "t.jsonl" _ _ H).
Defined.

(** C6.  When a file loads under one declaration of input keys, it loads
    under any other; the two results have the same fields with the same
    values, record by record, and every record carries as its input keys
    the declaration of the call that loaded it. *)
Theorem load_trainset_input_keys_independent (file_path : string)
  (keys1 keys2 : list string) (fs : filesystem) (loaded1 : list Example) :
  fst (load_trainset file_path (Some keys1) fs) = Ok loaded1 ->
  exists loaded2,
    fst (load_trainset file_path (Some keys2) fs) = Ok loaded2
    /\ map _store loaded1 = map _store loaded2
    /\ Forall (fun e => _input_keys e = Some (list_to_set keys1)) loaded1
    /\ Forall (fun e => _input_keys e = Some (list_to_set keys2)) loaded2.
Proof.
  unfold load_trainset, bind, open_r.
  destruct (files fs !! file_path) as [text|]; [|discriminate].
  simpl. intros H1.
  destruct (load_lines_store keys1 keys2 _ _ H1) as (loaded2 & H2 & Hs).
  exists loaded2. split; [exact H2|]. split; [exact Hs|].
  split; eapply load_lines_input_keys; eassumption.
Qed.

Lemma load_trainset_input_keys_independent_witness :
  fst (load_trainset "t.jsonl" (Some ["question"])
         (one_file "t.jsonl" (trainset_text [ex_qa; ex_scored])))
  = Ok (map (reloaded ["question"]) [ex_qa; ex_scored])
  /\ exists loaded2,
       fst (load_trainset "t.jsonl" (Some ["requirements"; "context"])
              (one_file "t.jsonl" (trainset_text [ex_qa; ex_scored])))
       = Ok loaded2
       /\ map _store (map (reloaded ["question"]) [ex_qa; ex_scored])
          = map _store loaded2
       /\ Forall (fun e => _input_keys e = Some (list_to_set ["question"]))
            (map (reloaded ["question"]) [ex_qa; ex_scored])
       /\ Forall (fun e => _input_keys e
                           = Some (list_to_set ["requirements"; "context"]))
            loaded2.
Proof.
  assert (H : fst (load_trainset "t.jsonl" (Some ["question"])
                     (one_file "t.jsonl" (trainset_text [ex_qa; ex_scored])))
              = Ok (map (reloaded ["question"]) [ex_qa; ex_scored]))
    by (vm_compute; reflexivity).
  split; [exact H|].
  exact (load_trainset_input_keys_independent "t.jsonl" ["question"]
           ["requirements"; "context"] _ _ H).
Defined.




(** ** The judge metrics *)

#[local] Set Warnings "-inexact-float".

Lemma Example_getattr_error (e : Example) (name : string) (err : exn) :
  Example_getattr e name = Raise err -> err = AttributeError name.
Proof.
  unfold Example_getattr. destruct (dict_get name (_store e)); [discriminate|].
  now intros [= <-].
Qed.

Ltac unfold_metric :=
  unfold search_assistant.llm_judge_metric, audio_assistant.llm_judge_metric,
    mbind, example_attr, pred_attr, mlift, attr, mret, print.

(** C2.  When the judge answers with every criterion, the score that
    [llm_judge_metric] returns is the unweighted mean of the criterion
    values: in search_assistant of the three values that [float] makes of
    the criteria, which for a boolean is 1.0 for true and 0.0 for false,
    and in audio_assistant of the six floats.  Through the metric, the
    criteria true, false, true give a score within 0.001 of 0.667, three
    true criteria or six criteria 1.0 give exactly 1.0, and three false
    criteria or six criteria 0.0 give exactly 0.0. *)
Theorem llm_judge_metric_is_mean :
  (forall float_of_str judge fr context question answer a v1 v2 v3 x1 x2 x3 r,
      Example_getattr (example fr) "context" = Ok context ->
      Example_getattr (example fr) "question" = Ok question ->
      Example_getattr (pred fr) "answer" = Ok answer ->
      judge search_assistant.judge_lm
        [("context", context); ("question", question); ("answer", answer)]
      = Ok a ->
      search_assistant.is_grounded a = Some v1 ->
      search_assistant.language_match a = Some v2 ->
      search_assistant.citation_correct a = Some v3 ->
      search_assistant.rationale a = Some r ->
      py_float float_of_str v1 = Ok x1 ->
      py_float float_of_str v2 = Ok x2 ->
      py_float float_of_str v3 = Ok x3 ->
      fst (search_assistant.llm_judge_metric float_of_str judge fr)
      = Ok {| score := mean [x1; x2; x3]; feedback := r |})
  /\ (forall float_of_str,
        py_float float_of_str (OBool true) = Ok 1%float
        /\ py_float float_of_str (OBool false) = Ok 0%float)
  /\ (forall float_of_str judge fr context question answer a g l c r,
        Example_getattr (example fr) "context" = Ok context ->
        Example_getattr (example fr) "question" = Ok question ->
        Example_getattr (pred fr) "answer" = Ok answer ->
        judge search_assistant.judge_lm
          [("context", context); ("question", question); ("answer", answer)]
        = Ok a ->
        search_assistant.is_grounded a = Some (OBool g) ->
        search_assistant.language_match a = Some (OBool l) ->
        search_assistant.citation_correct a = Some (OBool c) ->
        search_assistant.rationale a = Some r ->
        exists s,
          fst (search_assistant.llm_judge_metric float_of_str judge fr) = Ok s
          /\ feedback s = r
          /\ (g = true -> l = false -> c = true ->
              (PrimFloat.abs (score s - 0.667) <? 0.001)%float = true)
          /\ (g = true -> l = true -> c = true -> score s = 1%float)
          /\ (g = false -> l = false -> c = false -> score s = 0%float))
  /\ (forall judge fr requirements template a g t s au lc la r,
      Example_getattr (example fr) "requirements" = Ok requirements ->
      Example_getattr (pred fr) "template" = Ok template ->
      judge audio_assistant.judge_lm
        [("requirements", requirements); ("template", template)] = Ok a ->
      audio_assistant.general_score a = Some g ->
      audio_assistant.tone_score a = Some t ->
      audio_assistant.scenario_alignment_score a = Some s ->
      audio_assistant.audience_match_score a = Some au ->
      audio_assistant.language_consistency_score a = Some lc ->
      audio_assistant.language_appropriateness_score a = Some la ->
      audio_assistant.rationale a = Some r ->
      fst (audio_assistant.llm_judge_metric judge fr)
      = Ok {| score := mean [g; t; s; au; lc; la]; feedback := r |})
  /\ (forall judge fr requirements template a x r,
      Example_getattr (example fr) "requirements" = Ok requirements ->
      Example_getattr (pred fr) "template" = Ok template ->
      judge audio_assistant.judge_lm
        [("requirements", requirements); ("template", template)] = Ok a ->
      audio_assistant.general_score a = Some x ->
      audio_assistant.tone_score a = Some x ->
      audio_assistant.scenario_alignment_score a = Some x ->
      audio_assistant.audience_match_score a = Some x ->
      audio_assistant.language_consistency_score a = Some x ->
      audio_assistant.language_appropriateness_score a = Some x ->
      audio_assistant.rationale a = Some r ->
      exists s,
        fst (audio_assistant.llm_judge_metric judge fr) = Ok s
        /\ feedback s = r
        /\ (x = 1%float -> score s = 1%float)
        /\ (x = 0%float -> score s = 0%float)).
Proof.
  assert (Hsearch :
    forall float_of_str judge fr context question answer a v1 v2 v3 x1 x2 x3 r,
      Example_getattr (example fr) "context" = Ok context ->
      Example_getattr (example fr) "question" = Ok question ->
      Example_getattr (pred fr) "answer" = Ok answer ->
      judge search_assistant.judge_lm
        [("context", context); ("question", question); ("answer", answer)]
      = Ok a ->
      search_assistant.is_grounded a = Some v1 ->
      search_assistant.language_match a = Some v2 ->
      search_assistant.citation_correct a = Some v3 ->
      search_assistant.rationale a = Some r ->
      py_float float_of_str v1 = Ok x1 ->
      py_float float_of_str v2 = Ok x2 ->
      py_float float_of_str v3 = Ok x3 ->
      fst (search_assistant.llm_judge_metric float_of_str judge fr)
      = Ok {| score := mean [x1; x2; x3]; feedback := r |}).
  { intros fos judge fr context question answer a v1 v2 v3 x1 x2 x3 r
      Hc Hq Ha Hj Hg Hl Hcc Hr H1 H2 H3.
    unfold_metric. rewrite Hc, Hq, Ha, Hj, Hg. cbv beta iota delta [mlift].
    rewrite H1, Hl. cbv beta iota delta [mlift].
    rewrite H2, Hcc. cbv beta iota delta [mlift].
    rewrite H3, Hr. reflexivity. }
  assert (Haudio :
    forall judge fr requirements template a g t s au lc la r,
      Example_getattr (example fr) "requirements" = Ok requirements ->
      Example_getattr (pred fr) "template" = Ok template ->
      judge audio_assistant.judge_lm
        [("requirements", requirements); ("template", template)] = Ok a ->
      audio_assistant.general_score a = Some g ->
      audio_assistant.tone_score a = Some t ->
      audio_assistant.scenario_alignment_score a = Some s ->
      audio_assistant.audience_match_score a = Some au ->
      audio_assistant.language_consistency_score a = Some lc ->
      audio_assistant.language_appropriateness_score a = Some la ->
      audio_assistant.rationale a = Some r ->
      fst (audio_assistant.llm_judge_metric judge fr)
      = Ok {| score := mean [g; t; s; au; lc; la]; feedback := r |}).
  { intros judge fr requirements template a g t s au lc la r
      Hq Ht Hj Hg Htn Hs Hau Hlc Hla Hr.
    unfold_metric. rewrite Hq, Ht, Hj, Hlc, Hg, Htn, Hs, Hau, Hla, Hr.
    unfold mlift. destruct (lc <? 0.5)%float; cbn [example pred];
      rewrite ?Hq, ?Ht; reflexivity. }
  split; [exact Hsearch|]. split; [intros fos; split; reflexivity|].
  split; [|split; [exact Haudio|]].
  - intros fos judge fr context question answer a g l c r
      Hc Hq Ha Hj Hg Hl Hcc Hr.
    eexists. split.
    + apply (Hsearch fos judge fr context question answer a
               (OBool g) (OBool l) (OBool c)
               (if g then 1 else 0)%float (if l then 1 else 0)%float
               (if c then 1 else 0)%float r
               Hc Hq Ha Hj Hg Hl Hcc Hr); reflexivity.
    + cbn [score feedback]. split; [reflexivity|].
      repeat split; intros -> -> ->; vm_compute; reflexivity.
  - intros judge fr requirements template a x r Hq Ht Hj Hg Htn Hs Hau Hlc Hla Hr.
    eexists. split.
    + apply (Haudio judge fr requirements template a x x x x x x r); assumption.
    + cbn [score feedback]. split; [reflexivity|].
      split; intros ->; vm_compute; reflexivity.
Qed.

Lemma llm_judge_metric_is_mean_witness :
  fst (search_assistant.llm_judge_metric float_of_str_sample judge_search
         frame_search)
  = Ok {| score := mean [1; 0; 1]%float; feedback := "Wrong language." |}
  /\ fst (audio_assistant.llm_judge_metric judge_audio frame_audio)
     = Ok {| score := mean [1; 0.5; 1; 0.5; 0.25; 0.75]%float;
             feedback := "Mixed languages." |}.
Proof.
  destruct llm_judge_metric_is_mean as (Hs & _ & _ & Ha & _).
  split.
  - apply (Hs float_of_str_sample judge_search frame_search
             (PStr ("1. A framework" ++ String LF "2. For LMs"))
             (PStr "What is DSPy?") (PStr "A framework [[1]]")
             answer_search (OBool true) (OBool false) (OBool true)
             1%float 0%float 1%float "Wrong language."); reflexivity.
  - apply (Ha judge_audio frame_audio (PStr "weekly report")
             (PStr "# Weekly report") answer_audio 1 0.5 1 0.5 0.25 0.75
             "Mixed languages.")%float; reflexivity.
Defined.

(** The metric of search_assistant, step by step. *)
Lemma search_metric_run (float_of_str : string -> option float)
  (judge : string -> list (string * pyval)
           -> result search_assistant.AssessQuality) (fr : frame) :
  search_assistant.llm_judge_metric float_of_str judge fr
  = match Example_getattr (example fr) "context" with
    | Raise e => (Raise e, fr)
    | Ok context =>
    match Example_getattr (example fr) "question" with
    | Raise e => (Raise e, fr)
    | Ok question =>
    match Example_getattr (pred fr) "answer" with
    | Raise e => (Raise e, fr)
    | Ok answer =>
    match judge search_assistant.judge_lm
            [("context", context); ("question", question);
             ("answer", answer)] with
    | Raise e => (Raise e, fr)
    | Ok a =>
    match search_assistant.is_grounded a with
    | None => (Raise (AttributeError "is_grounded"), fr)
    | Some v1 =>
    match py_float float_of_str v1 with
    | Raise e => (Raise e, fr)
    | Ok x1 =>
    match search_assistant.language_match a with
    | None => (Raise (AttributeError "language_match"), fr)
    | Some v2 =>
    match py_float float_of_str v2 with
    | Raise e => (Raise e, fr)
    | Ok x2 =>
    match search_assistant.citation_correct a with
    | None => (Raise (AttributeError "citation_correct"), fr)
    | Some v3 =>
    match py_float float_of_str v3 with
    | Raise e => (Raise e, fr)
    | Ok x3 =>
    match search_assistant.rationale a with
    | None => (Raise (AttributeError "rationale"), fr)
    | Some r =>
        (Ok {| score := ((x1 + x2 + x3) / 3)%float; feedback := r |}, fr)
    end end end end end end end end end end end.
Proof.
  unfold_metric.
  destruct (Example_getattr (example fr) "context") as [context|];
    [|reflexivity].
  destruct (Example_getattr (example fr) "question") as [question|];
    [|reflexivity].
  destruct (Example_getattr (pred fr) "answer") as [answer|]; [|reflexivity].
  destruct (judge _ _) as [asm|]; [|reflexivity].
  destruct (search_assistant.is_grounded asm) as [v1|]; [|reflexivity].
  cbv beta iota delta [mlift].
  destruct (py_float float_of_str v1); [|reflexivity].
  destruct (search_assistant.language_match asm) as [v2|]; [|reflexivity].
  cbv beta iota delta [mlift].
  destruct (py_float float_of_str v2); [|reflexivity].
  destruct (search_assistant.citation_correct asm) as [v3|]; [|reflexivity].
  cbv beta iota delta [mlift].
  destruct (py_float float_of_str v3); [|reflexivity].
  now destruct (search_assistant.rationale asm).
Qed.

(** C4.  When the judge's answer lacks one of the criteria,
    [llm_judge_metric] raises and returns no score: no value stands in
    for the missing criterion.  The exception is [AttributeError] in
    audio_assistant, and in search_assistant as well when [float]
    converts the criteria that are there. *)
Theorem llm_judge_metric_missing_criterion :
  (forall float_of_str judge fr a,
      (forall kwargs, judge search_assistant.judge_lm kwargs = Ok a) ->
      search_assistant.is_grounded a = None
      \/ search_assistant.language_match a = None
      \/ search_assistant.citation_correct a = None ->
      (exists e,
          fst (search_assistant.llm_judge_metric float_of_str judge fr)
          = Raise e)
      /\ (converts float_of_str (search_assistant.is_grounded a) ->
          converts float_of_str (search_assistant.language_match a) ->
          converts float_of_str (search_assistant.citation_correct a) ->
          exists name,
            fst (search_assistant.llm_judge_metric float_of_str judge fr)
            = Raise (AttributeError name)))
  /\ (forall judge fr a,
      (forall kwargs, judge audio_assistant.judge_lm kwargs = Ok a) ->
      audio_assistant.general_score a = None
      \/ audio_assistant.tone_score a = None
      \/ audio_assistant.scenario_alignment_score a = None
      \/ audio_assistant.audience_match_score a = None
      \/ audio_assistant.language_consistency_score a = None
      \/ audio_assistant.language_appropriateness_score a = None ->
      exists name,
        fst (audio_assistant.llm_judge_metric judge fr)
        = Raise (AttributeError name)).
Proof.
  split.
  - intros fos judge fr a Hj Hmiss. rewrite search_metric_run.
    destruct (Example_getattr (example fr) "context") as [context|e] eqn:Ec;
      [|apply Example_getattr_error in Ec; subst; split; eauto].
    destruct (Example_getattr (example fr) "question") as [question|e] eqn:Eq;
      [|apply Example_getattr_error in Eq; subst; split; eauto].
    destruct (Example_getattr (pred fr) "answer") as [answer|e] eqn:Ea;
      [|apply Example_getattr_error in Ea; subst; split; eauto].
    rewrite Hj.
    destruct (search_assistant.is_grounded a) as [v1|]; [|split; eauto].
    destruct (py_float fos v1) as [x1|e1] eqn:E1.
    2:{ split; [eauto|]. intros [x Hx] _ _. congruence. }
    destruct (search_assistant.language_match a) as [v2|]; [|split; eauto].
    destruct (py_float fos v2) as [x2|e2] eqn:E2.
    2:{ split; [eauto|]. intros _ [x Hx] _. congruence. }
    destruct (search_assistant.citation_correct a) as [v3|]; [|split; eauto].
    destruct Hmiss as [H|[H|H]]; discriminate H.
  - intros judge fr a Hj Hmiss. unfold_metric.
    destruct (Example_getattr (example fr) "requirements")
      as [requirements|e] eqn:Eq;
      [|apply Example_getattr_error in Eq; subst; eauto].
    destruct (Example_getattr (pred fr) "template") as [template|e] eqn:Et;
      [|apply Example_getattr_error in Et; subst; eauto].
    rewrite Hj.
    destruct (audio_assistant.language_consistency_score a) as [lc|]; [|eauto].
    unfold mlift.
    destruct (lc <? 0.5)%float; cbn [example pred fst snd].
    + rewrite Eq, Et.
      destruct (audio_assistant.general_score a); [|eauto].
      destruct (audio_assistant.tone_score a); [|eauto].
      destruct (audio_assistant.scenario_alignment_score a); [|eauto].
      destruct (audio_assistant.audience_match_score a); [|eauto].
      destruct (audio_assistant.language_appropriateness_score a); [|eauto].
      destruct Hmiss as [H|[H|[H|[H|[H|H]]]]]; discriminate H.
    + destruct (audio_assistant.general_score a); [|eauto].
      destruct (audio_assistant.tone_score a); [|eauto].
      destruct (audio_assistant.scenario_alignment_score a); [|eauto].
      destruct (audio_assistant.audience_match_score a); [|eauto].
      destruct (audio_assistant.language_appropriateness_score a); [|eauto].
      destruct Hmiss as [H|[H|[H|[H|[H|H]]]]]; discriminate H.
Qed.

Lemma llm_judge_metric_missing_criterion_witness :
  (exists name,
      fst (search_assistant.llm_judge_metric float_of_str_sample
             judge_search_partial frame_search)
      = Raise (AttributeError name))
  /\ (exists e,
        fst (search_assistant.llm_judge_metric float_of_str_sample
               judge_search_text frame_search)
        = Raise e)
  /\ (exists name,
      fst (audio_assistant.llm_judge_metric judge_audio_partial frame_audio)
      = Raise (AttributeError name)).
Proof.
  destruct llm_judge_metric_missing_criterion as (Hs & Ha).
  split; [|split].
  - apply (Hs float_of_str_sample judge_search_partial frame_search
             answer_search_partial).
    + reflexivity.
    + right. right. reflexivity.
    + eexists. reflexivity.
    + eexists. reflexivity.
    + exact I.
  - apply (Hs float_of_str_sample judge_search_text frame_search
             answer_search_text).
    + reflexivity.
    + right. right. reflexivity.
  - apply (Ha judge_audio_partial frame_audio answer_audio_partial).
    + reflexivity.
    + right. left. reflexivity.
Defined.

(** C5.  A call of [llm_judge_metric] leaves the example as it was: its
    fields, their values and its input keys are the same after the call as
    before, whether the call returns a score or raises; the prediction is
    left as it was too. *)
Theorem llm_judge_metric_keeps_example :
  (forall float_of_str judge fr,
      example (snd (search_assistant.llm_judge_metric float_of_str judge fr))
      = example fr
      /\ pred (snd (search_assistant.llm_judge_metric float_of_str judge fr))
         = pred fr)
  /\ (forall judge fr,
      example (snd (audio_assistant.llm_judge_metric judge fr)) = example fr
      /\ pred (snd (audio_assistant.llm_judge_metric judge fr)) = pred fr).
Proof.
  split.
  - intros fos judge fr. rewrite search_metric_run.
    destruct (Example_getattr (example fr) "context"); [|easy].
    destruct (Example_getattr (example fr) "question"); [|easy].
    destruct (Example_getattr (pred fr) "answer"); [|easy].
    destruct (judge _ _) as [asm|]; [|easy].
    destruct (search_assistant.is_grounded asm) as [v1|]; [|easy].
    destruct (py_float fos v1); [|easy].
    destruct (search_assistant.language_match asm) as [v2|]; [|easy].
    destruct (py_float fos v2); [|easy].
    destruct (search_assistant.citation_correct asm) as [v3|]; [|easy].
    destruct (py_float fos v3); [|easy].
    destruct (search_assistant.rationale asm); easy.
  - intros judge fr. unfold_metric.
    destruct (Example_getattr (example fr) "requirements") eqn:Eq; [|easy].
    destruct (Example_getattr (pred fr) "template") eqn:Et; [|easy].
    destruct (judge _ _) as [asm|]; [|easy].
    destruct (audio_assistant.language_consistency_score asm) as [lc|]; [|easy].
    unfold mlift.
    destruct (lc <? 0.5)%float; cbn [example pred fst snd]; rewrite ?Eq, ?Et;
      destruct (audio_assistant.general_score asm); try easy;
      destruct (audio_assistant.tone_score asm); try easy;
      destruct (audio_assistant.scenario_alignment_score asm); try easy;
      destruct (audio_assistant.audience_match_score asm); try easy;
      destruct (audio_assistant.language_appropriateness_score asm); try easy;
      destruct (audio_assistant.rationale asm); easy.
Qed.

(** * The store and the applications, further *)

(** ** The trainset store: round trips and lines *)

Lemma for_each_map {A B} (g : A -> B) (body : B -> IO unit) (xs : list A) :
  for_each (map g xs) body = for_each xs (fun x => body (g x)).
Proof.
  induction xs as [|x xs IH]; [reflexivity|]. simpl. now rewrite IH.
Qed.

Lemma save_trainset_by_store (trainset : list Example) (file_path : string) :
  save_trainset trainset file_path
  = (open_w file_path ;;;
     for_each (map _store trainset) (fun store =>
       write file_path (json_dumps (PDict store) ++ String LF ""))).
Proof. unfold save_trainset. now rewrite for_each_map. Qed.

(** X1.  Saving a trainset to a writable path and loading that path gives
    the examples back, field by field and in order, with the input keys of
    the load call, as long as UTF-8 can encode the records, no example
    has a field named [self] or [base], and every example is empty or has
    a field whose name does not start with [dspy_]. *)
Theorem save_load_round_trip (trainset : list Example) (file_path : string)
  (input_keys : option (list string)) (fs : filesystem) :
  file_path ∉ unwritable fs ->
  Forall (fun ex => wf_val (PDict (_store ex)) = true /\ rebuilds ex = true)
    trainset ->
  Forall (fun ex => encodable (json_dumps (PDict (_store ex))) = true)
    trainset ->
  exists loaded,
    fst ((save_trainset trainset file_path ;;;
          load_trainset file_path input_keys) fs) = Ok loaded
    /\ map _store loaded = map _store trainset
    /\ Forall (fun e => _input_keys e
                        = Some (list_to_set
                                  (default default_input_keys input_keys)))
         loaded.
Proof.
  intros Hw HF He. eexists. split; [now apply load_after_save|]. split.
  - rewrite map_map. reflexivity.
  - apply Forall_map. apply Forall_forall. intros e _. reflexivity.
Qed.

Lemma save_load_round_trip_witness :
  exists loaded,
    fst ((save_trainset [ex_qa; ex_scored] "t.jsonl" ;;;
          load_trainset "t.jsonl" (Some ["requirements"])) fs_empty) = Ok loaded
    /\ map _store loaded = map _store [ex_qa; ex_scored]
    /\ Forall (fun e => _input_keys e = Some (list_to_set ["requirements"]))
         loaded.
Proof.
  apply (save_load_round_trip [ex_qa; ex_scored] "t.jsonl"
           (Some ["requirements"]) fs_empty).
  - apply not_elem_of_empty.
  - repeat constructor.
  - repeat constructor.
Defined.

(** X2.  [save_trainset] writes the fields of the examples and nothing of
    their input keys: two trainsets with the same fields, record by
    record, are saved alike, whatever their input keys. *)
Theorem save_trainset_ignores_input_keys (trainset1 trainset2 : list Example)
  (file_path : string) (fs : filesystem) :
  map _store trainset1 = map _store trainset2 ->
  save_trainset trainset1 file_path fs = save_trainset trainset2 file_path fs.
Proof.
  intros H. rewrite !save_trainset_by_store. now rewrite H.
Qed.

Lemma save_trainset_ignores_input_keys_witness :
  map _store [ex_qa] = map _store [ex_qa_other]
  /\ _input_keys ex_qa <> _input_keys ex_qa_other
  /\ save_trainset [ex_qa] "t.jsonl" fs_empty
     = save_trainset [ex_qa_other] "t.jsonl" fs_empty.
Proof.
  split; [reflexivity|]. split.
  - intros H.
    apply (f_equal (fun o => match o with
                             | Some s => bool_decide ("question" ∈ s)
                             | None => false
                             end)) in H.
    vm_compute in H. discriminate H.
  - apply (save_trainset_ignores_input_keys [ex_qa] [ex_qa_other] "t.jsonl"
             fs_empty).
    reflexivity.
Defined.

Lemma for_each_write_ok (file_path : string) (trainset : list Example) :
  forall fs,
    fst (for_each trainset (fun ex => write file_path (record_line ex)) fs)
    = Ok tt ->
    Forall (fun ex => encodable (json_dumps (PDict (_store ex))) = true)
      trainset.
Proof.
  induction trainset as [|ex xs IH]; intros fs; [constructor|].
  simpl. unfold bind, write at 1. unfold record_line at 1, toDict.
  rewrite encodable_line.
  destruct (encodable (json_dumps (PDict (_store ex)))) eqn:E; [|discriminate].
  intros H. constructor; [exact E|]. exact (IH _ H).
Qed.

(** When [save_trainset] completes, the path could be written and UTF-8
    could encode every record. *)
Lemma save_trainset_ok (trainset : list Example) (file_path : string)
  (fs : filesystem) :
  fst (save_trainset trainset file_path fs) = Ok tt ->
  (file_path ∉ unwritable fs)
  /\ Forall (fun ex => encodable (json_dumps (PDict (_store ex))) = true)
       trainset.
Proof.
  unfold save_trainset, bind, open_w.
  destruct (decide (file_path ∈ unwritable fs)) as [Hu|Hw].
  - rewrite bool_decide_eq_true_2 by exact Hu. discriminate.
  - rewrite bool_decide_eq_false_2 by exact Hw. intros H.
    split; [exact Hw|]. eapply for_each_write_ok. exact H.
Qed.

(** X3.  Saving twice to the same path keeps the second trainset only:
    when the first save completes, the outcome of the second and the
    files it leaves are those of saving the second trainset alone. *)
Theorem save_trainset_twice (trainset1 trainset2 : list Example)
  (file_path : string) (fs : filesystem) :
  fst (save_trainset trainset1 file_path fs) = Ok tt ->
  (save_trainset trainset1 file_path ;;; save_trainset trainset2 file_path) fs
  = save_trainset trainset2 file_path fs.
Proof.
  intros H. destruct (save_trainset_ok _ _ _ H) as [Hw He].
  unfold bind at 1. rewrite save_trainset_run by assumption.
  unfold save_trainset, bind, open_w. cbn [with_file unwritable files read_error write_error].
  rewrite bool_decide_eq_false_2 by exact Hw.
  now rewrite insert_insert_eq.
Qed.

Lemma save_trainset_twice_witness :
  (save_trainset [ex_qa; ex_scored] "t.jsonl" ;;;
   save_trainset [ex_scored] "t.jsonl") fs_empty
  = save_trainset [ex_scored] "t.jsonl" fs_empty.
Proof.
  apply (save_trainset_twice [ex_qa; ex_scored] [ex_scored] "t.jsonl" fs_empty).
  reflexivity.
Defined.

Lemma iter_lines_nonempty (a : string) :
  iter_lines (a ++ String LF "") <> [].
Proof.
  destruct a as [|c a]; [discriminate|]. simpl.
  destruct (Ascii.eqb c LF); [discriminate|].
  destruct (Ascii.eqb c CR).
  - destruct (a ++ String LF "") as [|c' r']; [discriminate|].
    destruct (Ascii.eqb c' LF); discriminate.
  - destruct (iter_lines (a ++ String LF "")); discriminate.
Qed.

Lemma iter_lines_CR (r : string) :
  iter_lines (String CR r)
  = String LF "" :: iter_lines match r with
                               | String c' r' => if Ascii.eqb c' LF then r' else r
                               | "" => ""
                               end.
Proof.
  destruct r as [|c' r']; [reflexivity|]. cbn [iter_lines].
  change (Ascii.eqb CR LF) with false. change (Ascii.eqb CR CR) with true.
  cbv iota. destruct (Ascii.eqb c' LF) eqn:E; [reflexivity|].
  simpl. now rewrite E.
Qed.

(** The lines of a text that continues after a line feed. *)
Lemma iter_lines_app (a b : string) :
  iter_lines (a ++ String LF b)
  = (iter_lines (a ++ String LF "") ++ iter_lines b)%list.
Proof.
  remember (String.length a) as n eqn:Hn. revert a Hn.
  induction n as [n IH] using lt_wf_ind. intros a ->.
  destruct a as [|c a]; [reflexivity|].
  destruct (Ascii.eqb c LF) eqn:E1.
  { simpl. rewrite E1. rewrite (IH (String.length a)); simpl; auto. }
  destruct (Ascii.eqb c CR) eqn:E2.
  { apply Ascii.eqb_eq in E2. subst c.
    change (String CR a ++ ?t) with (String CR (a ++ t)).
    rewrite !iter_lines_CR. destruct a as [|c' a']; [reflexivity|].
    change (String c' a' ++ ?t) with (String c' (a' ++ t)).
    cbv beta match. destruct (Ascii.eqb c' LF).
    - rewrite (IH (String.length a')); simpl; auto.
    - change (String c' (a' ++ ?t)) with (String c' a' ++ t).
      rewrite (IH (String.length (String c' a'))); simpl; auto. }
  simpl. rewrite E1, E2. rewrite (IH (String.length a)); simpl; auto.
  pose proof (iter_lines_nonempty a).
  destruct (iter_lines (a ++ String LF "")); [contradiction | reflexivity].
Qed.

Lemma load_lines_app (input_keys : list string) (l1 l2 : list string) :
  load_lines input_keys (l1 ++ l2) []
  = rbind (load_lines input_keys l1 []) (fun a =>
      rbind (load_lines input_keys l2 []) (fun b => Ok (a ++ b)%list)).
Proof.
  induction l1 as [|line l1 IH].
  - simpl. now destruct (load_lines input_keys l2 []).
  - change ((line :: l1) ++ l2)%list with (line :: (l1 ++ l2))%list.
    rewrite !load_lines_cons. destruct (load_line input_keys line); [|reflexivity].
    simpl. rewrite IH. destruct (load_lines input_keys l1 []); [|reflexivity].
    simpl. now destruct (load_lines input_keys l2 []).
Qed.




(** X5.  Files can be put end to end: when a text ends with a line feed
    and loads, and a second text loads, the first text followed by the
    second loads to the records of the first followed by those of the
    second. *)
Theorem load_trainset_concatenation (path1 path2 path3 body text2 : string)
  (input_keys : option (list string)) (fs : filesystem)
  (loaded1 loaded2 : list Example) :
  files fs !! path1 = Some (body ++ String LF "") ->
  files fs !! path2 = Some text2 ->
  files fs !! path3 = Some (body ++ String LF text2) ->
  fst (load_trainset path1 input_keys fs) = Ok loaded1 ->
  fst (load_trainset path2 input_keys fs) = Ok loaded2 ->
  fst (load_trainset path3 input_keys fs) = Ok (loaded1 ++ loaded2)%list.
Proof.
  intros H1 H2 H3.
  rewrite (load_trainset_run _ _ _ _ H1), (load_trainset_run _ _ _ _ H2),
    (load_trainset_run _ _ _ _ H3).
  simpl. intros L1 L2. now rewrite iter_lines_app, load_lines_app, L1, L2.
Qed.

Lemma load_trainset_concatenation_witness :
  fst (load_trainset "ab.jsonl" None fs_parts)
  = Ok (map (reloaded default_input_keys) [ex_qa]
        ++ map (reloaded default_input_keys) [ex_scored])%list.
Proof.
  apply (load_trainset_concatenation "a.jsonl" "b.jsonl" "ab.jsonl"
           (json_dumps (toDict ex_qa)) (trainset_text [ex_scored]) None
           fs_parts); vm_compute; reflexivity.
Defined.

Lemma skip_ws_blank (s : string) : all_chars is_ws s = true -> skip_ws s = "".
Proof.
  induction s as [|c s IH]; [reflexivity|]. simpl.
  intros [Hc Hs]%andb_prop. rewrite Hc. auto.
Qed.

Lemma strip_prefix_BOM_ws (s : string) :
  all_chars is_ws s = true -> strip_prefix BOM s = None.
Proof.
  destruct s as [|c s]; [reflexivity|]. simpl all_chars.
  intros [Hc _]%andb_prop. revert Hc. each_char c; try discriminate; reflexivity.
Qed.

(** A line of white space is not a record. *)
Lemma load_line_blank (input_keys : list string) (line : string) :
  all_chars is_ws line = true ->
  load_line input_keys line
  = Raise (JSONDecodeError "Expecting value" line (char_length line)).
Proof.
  intros H. unfold load_line, json_loads.
  rewrite strip_prefix_BOM_ws, skip_ws_blank by exact H.
  replace (2 * String.length line + 2) with (S (2 * String.length line + 1))
    by lia.
  cbn [scan_once rbind char_length]. now rewrite Nat.sub_0_r.
Qed.

(** X6.  A file with a line of white space only, such as an empty line
    after the last record, does not load: [load_trainset] raises and
    returns no record. *)
Theorem load_trainset_blank_line (file_path text : string)
  (input_keys : option (list string)) (fs : filesystem) :
  files fs !! file_path = Some text ->
  Exists (fun line => all_chars is_ws line = true) (iter_lines text) ->
  exists e, load_trainset file_path input_keys fs = (Raise e, fs).
Proof.
  intros Hf Hb. rewrite (load_trainset_run _ _ _ _ Hf).
  assert (Hbad : Exists (fun line => exists e,
                     load_line (default default_input_keys input_keys) line
                     = Raise e) (iter_lines text)).
  { eapply Exists_impl; [exact Hb|]. intros line Hl.
    rewrite load_line_blank by exact Hl. eauto. }
  destruct (first_bad_exists _ _ 0 Hbad) as (j & e & Hfb).
  destruct (load_lines_first_bad _ _ _ _ _ Hfb) as (Hl & _).
  exists e. now rewrite Hl.
Qed.

Lemma load_trainset_blank_line_witness :
  fst (load_trainset "t.jsonl" None (one_file "t.jsonl" (trainset_text [ex_qa])))
  = Ok [reloaded default_input_keys ex_qa]
  /\ exists e,
       load_trainset "t.jsonl" None (one_file "t.jsonl" text_blank_end)
       = (Raise e, one_file "t.jsonl" text_blank_end).
Proof.
  split; [vm_compute; reflexivity|].
  apply (load_trainset_blank_line "t.jsonl" text_blank_end None
           (one_file "t.jsonl" text_blank_end)).
  - reflexivity.
  - apply Exists_cons_tl, Exists_cons_hd. reflexivity.
Defined.

Lemma iter_lines_crlf (text : string) :
  all_chars no_CR text = true -> iter_lines (crlf text) = iter_lines text.
Proof.
  induction text as [|c r IH]; [reflexivity|]. simpl all_chars.
  intros [Hc Hr]%andb_prop. simpl crlf.
  destruct (Ascii.eqb c LF) eqn:E1.
  - rewrite iter_lines_CR. cbv beta match. rewrite Ascii.eqb_refl.
    simpl. now rewrite E1, IH.
  - unfold no_CR in Hc. apply negb_true_iff in Hc.
    simpl. now rewrite E1, Hc, IH.
Qed.

(** X7.  Line ends written as carriage return and line feed load like
    line feeds: a file and the same file with every line feed preceded by
    a carriage return give the same result. *)
Theorem load_trainset_crlf (file_path text : string)
  (input_keys : option (list string)) (fs1 fs2 : filesystem) :
  all_chars no_CR text = true ->
  files fs1 !! file_path = Some text ->
  files fs2 !! file_path = Some (crlf text) ->
  fst (load_trainset file_path input_keys fs1)
  = fst (load_trainset file_path input_keys fs2).
Proof.
  intros Hc H1 H2.
  rewrite (load_trainset_run _ _ _ _ H1), (load_trainset_run _ _ _ _ H2).
  simpl. now rewrite iter_lines_crlf.
Qed.

Lemma load_trainset_crlf_witness :
  fst (load_trainset "t.jsonl" None
         (one_file "t.jsonl" (crlf (trainset_text [ex_qa; ex_scored]))))
  = Ok (map (reloaded default_input_keys) [ex_qa; ex_scored]).
Proof.
  rewrite <- (load_trainset_crlf "t.jsonl" (trainset_text [ex_qa; ex_scored])
                None (one_file "t.jsonl" (trainset_text [ex_qa; ex_scored]))
                (one_file "t.jsonl" (crlf (trainset_text [ex_qa; ex_scored]))));
    vm_compute; reflexivity.
Defined.

(** ** [load_queries] *)







(** ** [build_trainset] and the trainset of the search script *)

Lemma question_example_eq (question context : string) :
  question_example question context
  = {| _store := [("question", PStr question); ("context", PStr context)];
       _input_keys := Some {[ "question"; "context" ]} |}.
Proof. reflexivity. Qed.

Lemma searches_app (t1 t2 : list event) :
  searches (t1 ++ t2) = (searches t1 ++ searches t2)%list.
Proof. apply omap_app. Qed.

(** The loop of [build_trainset]: the disk is left alone; the searches are
    those of the first queries, one each and in order, each with the draw
    of its iteration; a search that fails is the last one and its failure
    is the outcome; and when the loop ends well it has added one example
    per query. *)
Lemma build_loop_spec (sv : search_service) (api_key cx : string)
  (queries : list string) :
  forall (i : nat) (acc : list Example) (m m' : machine)
         (r : outcome (list Example)),
    build_loop sv api_key cx i queries acc m = (r, m') ->
    disk m' = disk m
    /\ exists k,
         k <= length queries
         /\ searches (trace m')
            = (searches (trace m)
               ++ imap (fun j q => (q, randint sv (i + j))) (take k queries))%list
         /\ (forall j q, j < k -> queries !! j = Some q ->
               match web_search sv api_key cx q (randint sv (i + j)) with
               | Done _ => True
               | Fail e => S j = k /\ r = Fail e
               end)
         /\ (forall e, r = Fail e ->
               0 < k
               /\ exists q,
                    queries !! (k - 1) = Some q
                    /\ web_search sv api_key cx q (randint sv (i + (k - 1)))
                       = Fail e)
         /\ (forall ts, r = Done ts ->
               k = length queries
               /\ exists new, ts = (acc ++ new)%list
                    /\ Forall2 built_from queries new).
Proof.
  induction queries as [|question queries IH]; intros i acc m m' r.
  - simpl. intros [= <- <-]. split; [reflexivity|]. exists 0.
    split; [lia|]. split; [simpl; now rewrite app_nil_r|].
    split; [intros j q Hj; lia|]. split; [discriminate|].
    intros ts [= <-]. split; [reflexivity|]. exists [].
    split; [now rewrite app_nil_r | constructor].
  - cbn [build_loop]. unfold sbind, emit, of_outcome. cbn [disk trace].
    destruct (web_search sv api_key cx question (randint sv i))
      as [results|e] eqn:Ew.
    + intros H. apply IH in H. cbn [disk trace] in H.
      destruct H as (Hd & k & Hk & Hs & Hall & Hfail & Hts).
      split; [exact Hd|].
      exists (S k). split; [simpl; lia|]. split; [|split; [|split]].
      * rewrite Hs. rewrite !searches_app. cbn [take]. rewrite imap_cons.
        cbn [searches omap]. rewrite Nat.add_0_r, app_nil_r.
        rewrite <- !app_assoc. simpl. do 2 f_equal.
        apply imap_ext. intros j q _. simpl. f_equal. f_equal. lia.
      * intros [|j] q Hj Hq.
        -- injection Hq as <-. now rewrite Nat.add_0_r, Ew.
        -- cbn in Hq. specialize (Hall j q ltac:(lia) Hq).
           replace (i + S j) with (S i + j) by lia.
           destruct (web_search sv api_key cx q (randint sv (S i + j)));
             [exact I|].
           destruct Hall as [<- ->]. auto.
      * intros e He. destruct (Hfail e He) as (Hpos & q & Hq & Hw).
        split; [lia|]. exists q.
        replace (S k - 1) with (S (k - 1)) by lia. split; [exact Hq|].
        replace (i + S (k - 1)) with (S i + (k - 1)) by lia. exact Hw.
      * intros ts Hr. destruct (Hts ts Hr) as (-> & new & -> & HF).
        split; [reflexivity|].
        exists (question_example question (make_context results) :: new).
        split; [now rewrite <- app_assoc|].
        constructor; [|exact HF]. rewrite question_example_eq. now eexists.
    + intros [= <- <-]. cbn [disk trace]. split; [reflexivity|].
      exists 1. split; [simpl; lia|]. split; [|split; [|split]].
      * rewrite searches_app. cbn [take]. rewrite take_0, imap_cons.
        simpl. now rewrite Nat.add_0_r.
      * intros j q Hj Hq. assert (j = 0) as -> by lia.
        injection Hq as <-. rewrite Nat.add_0_r, Ew. auto.
      * intros e' [= <-]. split; [lia|]. exists question.
        split; [reflexivity|]. now rewrite Nat.add_0_r.
      * discriminate.
Qed.

Lemma build_trainset_cases (sv : search_service) (queries : list string)
  (m : machine) :
  match environ sv !! "GOOGLE_CSE_API_KEY", environ sv !! "GOOGLE_CSE_CX" with
  | None, _ => build_trainset sv queries m = (Fail (KeyError "GOOGLE_CSE_API_KEY"), m)
  | Some key, None =>
      build_trainset sv queries m
      = (Fail (KeyError "GOOGLE_CSE_CX"),
         {| disk := disk m;
            trace := (trace m ++ [Printed [PrStr key]])%list |})
  | Some key, Some cx =>
      build_trainset sv queries m
      = build_loop sv key cx 0 queries []
          {| disk := disk m;
             trace := (trace m ++ [Printed [PrStr key]])%list |}
  end.
Proof.
  unfold build_trainset, sbind, getenv, of_outcome, emit.
  destruct (environ sv !! "GOOGLE_CSE_API_KEY") as [key|]; [|reflexivity].
  cbn [disk trace]. destruct (environ sv !! "GOOGLE_CSE_CX"); reflexivity.
Qed.

Lemma build_trainset_done (sv : search_service) (queries : list string)
  (m m' : machine) (trainset : list Example) :
  build_trainset sv queries m = (Done trainset, m') ->
  Forall2 built_from queries trainset /\ disk m' = disk m.
Proof.
  pose proof (build_trainset_cases sv queries m) as Hc.
  destruct (environ sv !! "GOOGLE_CSE_API_KEY") as [key|];
    [|rewrite Hc; discriminate].
  destruct (environ sv !! "GOOGLE_CSE_CX") as [cx|]; [|rewrite Hc; discriminate].
  rewrite Hc. intros H. apply build_loop_spec in H.
  destruct H as (Hd & k & _ & _ & _ & _ & Hts).
  destruct (Hts _ eq_refl) as (_ & new & -> & HF). auto.
Qed.

(** X9.  When [build_trainset] returns, it returns one example per query,
    in the order of the queries; each example has exactly the fields
    [question], holding the query, and [context], a string, and both are
    its input keys.  No file is touched. *)
Theorem build_trainset_examples (sv : search_service) (queries : list string)
  (m m' : machine) (trainset : list Example) :
  build_trainset sv queries m = (Done trainset, m') ->
  Forall2 built_from queries trainset /\ disk m' = disk m.
Proof. apply build_trainset_done. Qed.

Lemma build_trainset_examples_witness :
  exists trainset m',
    build_trainset service_sample ["what is dspy"; "who wrote it"] machine_empty
    = (Done trainset, m')
    /\ Forall2 built_from ["what is dspy"; "who wrote it"] trainset
    /\ disk m' = disk machine_empty.
Proof.
  eexists _, _. split; [vm_compute; reflexivity|].
  eapply (build_trainset_examples service_sample
            ["what is dspy"; "who wrote it"] machine_empty).
  vm_compute. reflexivity.
Defined.

(** X10.  [build_trainset] searches at most once per query, in the order
    of the queries, asking each time for the number of results drawn in
    that iteration.  It stops at the first search that fails: a search
    that fails is the last one made and its failure is the outcome of
    [build_trainset], and when the outcome is a failure after some search,
    it is the failure of the last search made.  When a trainset is
    returned, every query has been searched. *)
Theorem build_trainset_searches (sv : search_service) (queries : list string)
  (m m' : machine) (r : outcome (list Example)) :
  build_trainset sv queries m = (r, m') ->
  exists k,
    k <= length queries
    /\ searches (trace m')
       = (searches (trace m)
          ++ imap (fun i q => (q, randint sv i)) (take k queries))%list
    /\ (forall trainset, r = Done trainset -> k = length queries)
    /\ (forall key cx i q,
          environ sv !! "GOOGLE_CSE_API_KEY" = Some key ->
          environ sv !! "GOOGLE_CSE_CX" = Some cx ->
          i < k -> queries !! i = Some q ->
          match web_search sv key cx q (randint sv i) with
          | Done _ => True
          | Fail e => S i = k /\ r = Fail e
          end)
    /\ (forall e, r = Fail e -> 0 < k ->
          exists key cx q,
            environ sv !! "GOOGLE_CSE_API_KEY" = Some key
            /\ environ sv !! "GOOGLE_CSE_CX" = Some cx
            /\ queries !! (k - 1) = Some q
            /\ web_search sv key cx q (randint sv (k - 1)) = Fail e).
Proof.
  pose proof (build_trainset_cases sv queries m) as Hc.
  destruct (environ sv !! "GOOGLE_CSE_API_KEY") as [key|].
  2:{ rewrite Hc. intros [= <- <-]. exists 0. split; [lia|].
      split; [now rewrite take_0, app_nil_r|]. split; [discriminate|].
      split; [intros; lia | intros; lia]. }
  destruct (environ sv !! "GOOGLE_CSE_CX") as [cx|].
  2:{ rewrite Hc. intros [= <- <-]. exists 0. split; [lia|]. cbn [trace].
      split; [rewrite searches_app, take_0; simpl; now rewrite app_nil_r|].
      split; [discriminate|]. split; [intros; lia | intros; lia]. }
  rewrite Hc. intros H. apply build_loop_spec in H. cbn [disk trace] in H.
  destruct H as (_ & k & Hk & Hs & Hall & Hfail & Hts). exists k.
  split; [exact Hk|]. split; [|split; [|split]].
  - rewrite Hs, searches_app. simpl. now rewrite app_nil_r.
  - intros ts Hr. now destruct (Hts ts Hr).
  - intros key' cx' i q [= <-] [= <-] Hi Hq. exact (Hall i q Hi Hq).
  - intros e He _. destruct (Hfail e He) as (_ & q & Hq & Hw). eauto 10.
Qed.

Lemma build_trainset_searches_witness :
  exists m' k,
    build_trainset service_down ["what is dspy"; "who wrote it"] machine_empty
    = (Fail (ServiceError "quota"), m')
    /\ k <= 2
    /\ searches (trace m')
       = (searches (trace machine_empty)
          ++ imap (fun i q => (q, randint service_down i))
               (take k ["what is dspy"; "who wrote it"]))%list
    /\ (forall key cx i q,
          environ service_down !! "GOOGLE_CSE_API_KEY" = Some key ->
          environ service_down !! "GOOGLE_CSE_CX" = Some cx ->
          i < k -> ["what is dspy"; "who wrote it"] !! i = Some q ->
          match web_search service_down key cx q (randint service_down i) with
          | Done _ => True
          | Fail e => S i = k /\ Fail (A := list Example) (ServiceError "quota") = Fail e
          end).
Proof.
  destruct (build_trainset_searches service_down
              ["what is dspy"; "who wrote it"] machine_empty
              (snd (build_trainset service_down
                      ["what is dspy"; "who wrote it"] machine_empty))
              (Fail (ServiceError "quota")))
    as (k & Hk & Hs & _ & Hall & _); [vm_compute; reflexivity|].
  eexists _, k. split; [vm_compute; reflexivity|].
  split; [exact Hk|]. split; [exact Hs | exact Hall].
Defined.

(** X11.  Without the environment variable of the key or of the engine
    id, [build_trainset] raises [KeyError] for the missing variable before
    any search, and touches no file. *)
Theorem build_trainset_missing_variable (sv : search_service)
  (queries : list string) (m : machine) :
  environ sv !! "GOOGLE_CSE_API_KEY" = None
  \/ environ sv !! "GOOGLE_CSE_CX" = None ->
  exists key m',
    build_trainset sv queries m = (Fail (KeyError key), m')
    /\ (key = "GOOGLE_CSE_API_KEY" \/ key = "GOOGLE_CSE_CX")
    /\ environ sv !! key = None
    /\ searches (trace m') = searches (trace m)
    /\ disk m' = disk m.
Proof.
  intros H. pose proof (build_trainset_cases sv queries m) as Hc.
  destruct (environ sv !! "GOOGLE_CSE_API_KEY") as [key|] eqn:E1.
  - destruct H as [H|H]; [discriminate|]. rewrite H in Hc.
    eexists _, _. split; [exact Hc|]. split; [now right|].
    split; [exact H|]. cbn [trace disk]. split; [|reflexivity].
    rewrite searches_app. simpl. now rewrite app_nil_r.
  - eexists _, _. split; [exact Hc|]. auto.
Qed.

Lemma build_trainset_missing_variable_witness :
  exists key m',
    build_trainset service_no_engine ["what is dspy"] machine_empty
    = (Fail (KeyError key), m')
    /\ (key = "GOOGLE_CSE_API_KEY" \/ key = "GOOGLE_CSE_CX")
    /\ environ service_no_engine !! key = None
    /\ searches (trace m') = searches (trace machine_empty)
    /\ disk m' = disk machine_empty.
Proof.
  apply (build_trainset_missing_variable service_no_engine ["what is dspy"]
           machine_empty).
  right. reflexivity.
Defined.

Lemma built_from_wf (query : string) (e : Example) :
  built_from query e ->
  wf_val (toDict e) = true /\ rebuilds e = true
  /\ reloaded default_input_keys e = e.
Proof. intros [context ->]. repeat split. Qed.

Lemma built_trainset_reloads (queries : list string) (trainset : list Example) :
  Forall2 built_from queries trainset ->
  Forall (fun ex => wf_val (toDict ex) = true /\ rebuilds ex = true) trainset
  /\ map (reloaded default_input_keys) trainset = trainset.
Proof.
  induction 1 as [|q e qs es Hb _ [IH1 IH2]]; [split; [constructor | reflexivity]|].
  destruct (built_from_wf _ _ Hb) as (W & R & E). split.
  - constructor; auto.
  - simpl. now rewrite E, IH2.
Qed.

(** X12.  The trainset of the search script is built once: when the file
    of the trainset does not exist, building succeeds and UTF-8 can encode
    the records built, the script returns what was built and saves it; run
    again on the files it left, with whatever queries and services, it
    returns the same trainset, searches nothing and changes nothing. *)
Theorem search_trainset_built_once (sv : search_service)
  (queries : list string) (m m1 : machine) (trainset : list Example) :
  files (disk m) !! trainset_path = None ->
  trainset_path ∉ unwritable (disk m) ->
  build_trainset sv queries m = (Done trainset, m1) ->
  Forall (fun ex => encodable (json_dumps (PDict (_store ex))) = true)
    trainset ->
  exists m2,
    search_trainset sv queries m = (Done trainset, m2)
    /\ files (disk m2) !! trainset_path = Some (store_text trainset)
    /\ trace m2 = trace m1
    /\ forall sv' queries',
         search_trainset sv' queries' m2 = (Done trainset, m2).
Proof.
  intros Hnone Hw Hb He.
  destruct (build_trainset_done _ _ _ _ _ Hb) as [HF Hd].
  destruct (built_trainset_reloads _ _ HF) as [HW Hre].
  unfold search_trainset, sbind at 1, path_exists at 1.
  rewrite Hnone. rewrite bool_decide_eq_false_2 by (intros [x Hx]; discriminate).
  unfold sbind, run_io, sret. rewrite Hb.
  rewrite save_trainset_run; [|rewrite Hd; exact Hw | exact He].
  cbn [disk trace].
  eexists. split; [reflexivity|]. cbn [disk trace files with_file].
  split; [apply lookup_insert_eq|]. split; [reflexivity|].
  intros sv' queries'. unfold path_exists. cbn [disk files with_file].
  rewrite lookup_insert_eq.
  rewrite bool_decide_eq_true_2 by (eexists; reflexivity).
  rewrite (load_trainset_run _ (trainset_text trainset))
    by apply lookup_insert_eq.
  cbn [default]. rewrite iter_lines_trainset.
  - rewrite load_lines_records by exact HW. now rewrite Hre.
  - eapply Forall_impl; [exact HW|]. now intros ex [W _].
Qed.

Lemma search_trainset_built_once_witness :
  exists trainset m2,
    search_trainset service_sample ["what is dspy"; "who wrote it"]
      machine_empty = (Done trainset, m2)
    /\ length trainset = 2
    /\ search_trainset service_down [] m2 = (Done trainset, m2).
Proof.
  destruct (search_trainset_built_once service_sample
              ["what is dspy"; "who wrote it"] machine_empty
              (snd (build_trainset service_sample
                      ["what is dspy"; "who wrote it"] machine_empty))
              [question_example "what is dspy"
                 (make_context ["about what is dspy"; "more on what is dspy"]);
               question_example "who wrote it"
                 (make_context ["about who wrote it"; "more on who wrote it"])])
    as (m2 & H1 & _ & _ & H2).
  - reflexivity.
  - apply not_elem_of_empty.
  - vm_compute. reflexivity.
  - repeat constructor.
  - eexists _, m2. split; [exact H1|]. split; [reflexivity|]. apply H2.
Defined.

(** ** [GoogleRAg.forward] and the metric *)

(** X13.  The pieces of the search application fit: for an example that
    [build_trainset] made and a prediction that [GoogleRAg.forward]
    returned, the metric finds every field it reads and hands the judge the
    context and the question of the example with the answer of the
    prediction; when the judge answers with criteria that [float]
    converts, the metric returns the mean of the converted values with the
    rationale of the judge, and changes nothing. *)
Theorem search_pipeline_scores (self : rag_modules) (query : string)
  (e prediction : Example) (out : list (list printed)) :
  built_from query e ->
  GoogleRAg_forward self (PStr query) = Ok prediction ->
  exists context answer,
    Example_getattr e "context" = Ok (PStr context)
    /\ Example_getattr prediction "answer" = Ok answer
    /\ forall float_of_str judge a v1 v2 v3 x1 x2 x3 r,
         judge search_assistant.judge_lm
           [("context", PStr context); ("question", PStr query);
            ("answer", answer)] = Ok a ->
         search_assistant.is_grounded a = Some v1 ->
         search_assistant.language_match a = Some v2 ->
         search_assistant.citation_correct a = Some v3 ->
         search_assistant.rationale a = Some r ->
         py_float float_of_str v1 = Ok x1 ->
         py_float float_of_str v2 = Ok x2 ->
         py_float float_of_str v3 = Ok x3 ->
         search_assistant.llm_judge_metric float_of_str judge
           {| example := e; pred := prediction; stdout := out |}
         = (Ok {| score := mean [x1; x2; x3]; feedback := r |},
            {| example := e; pred := prediction; stdout := out |}).
Proof.
  intros [context ->]. unfold GoogleRAg_forward.
  destruct (retrieve self (PStr query)) as [passages|]; [|discriminate].
  simpl. destruct (generate_answer self passages (PStr query)) as [p|];
    [|discriminate].
  simpl. destruct (Example_getattr p "answer") as [answer|]; [|discriminate].
  simpl. intros [= <-]. exists context, answer.
  split; [reflexivity|]. split; [reflexivity|].
  intros fos judge a v1 v2 v3 x1 x2 x3 r Hj Hg Hl Hc Hr H1 H2 H3.
  rewrite search_metric_run. cbn [example pred].
  change (Example_getattr _ "context") with (Ok (A:=pyval) (PStr context)).
  change (Example_getattr _ "question") with (Ok (A:=pyval) (PStr query)).
  cbv beta iota.
  change (Example_getattr _ "answer") with (Ok (A:=pyval) answer).
  cbv beta iota. rewrite Hj, Hg, H1, Hl, H2, Hc, H3, Hr. reflexivity.
Qed.

Lemma search_pipeline_scores_witness :
  search_assistant.llm_judge_metric float_of_str_sample judge_search
    {| example := question_example "what is dspy" "1. DSPy is a framework";
       pred := Example_init None
                 [("context", PList [PStr "DSPy is a framework"]);
                  ("answer", PStr "A framework [[1]]")];
       stdout := [] |}
  = (Ok {| score := mean [1; 0; 1]%float; feedback := "Wrong language." |},
     {| example := question_example "what is dspy" "1. DSPy is a framework";
        pred := Example_init None
                  [("context", PList [PStr "DSPy is a framework"]);
                   ("answer", PStr "A framework [[1]]")];
        stdout := [] |}).
Proof.
  destruct (search_pipeline_scores rag_sample "what is dspy"
              (question_example "what is dspy" "1. DSPy is a framework")
              (Example_init None
                 [("context", PList [PStr "DSPy is a framework"]);
                  ("answer", PStr "A framework [[1]]")]) [])
    as (context & answer & Hc & Ha & H).
  - eexists. reflexivity.
  - reflexivity.
  - vm_compute in Hc. vm_compute in Ha.
    injection Hc as <-. injection Ha as <-.
    apply (H float_of_str_sample judge_search answer_search
             (OBool true) (OBool false) (OBool true) 1%float 0%float 1%float
             "Wrong language.");
      reflexivity.
Defined.

(** ** The scores and the output of the metrics *)

(** X14.  Whenever the metric of search_assistant returns a score, the
    judge has answered with the three criteria, [float] has converted
    each of them, and the score is the sum of the converted values divided
    by 3.  When the three criteria are booleans, the score lies between 0
    and 1; it is 1 exactly when the three hold, and 0 exactly when none
    holds. *)
Theorem search_score_counts_criteria
  (float_of_str : string -> option float)
  (judge : string -> list (string * pyval)
           -> result search_assistant.AssessQuality)
  (fr fr' : frame) (s : Score) :
  search_assistant.llm_judge_metric float_of_str judge fr = (Ok s, fr') ->
  exists context question answer a v1 v2 v3 x1 x2 x3,
    Example_getattr (example fr) "context" = Ok context
    /\ Example_getattr (example fr) "question" = Ok question
    /\ Example_getattr (pred fr) "answer" = Ok answer
    /\ judge search_assistant.judge_lm
         [("context", context); ("question", question); ("answer", answer)]
       = Ok a
    /\ search_assistant.is_grounded a = Some v1
    /\ search_assistant.language_match a = Some v2
    /\ search_assistant.citation_correct a = Some v3
    /\ py_float float_of_str v1 = Ok x1
    /\ py_float float_of_str v2 = Ok x2
    /\ py_float float_of_str v3 = Ok x3
    /\ score s = ((x1 + x2 + x3) / 3)%float
    /\ (forall g l c,
          v1 = OBool g -> v2 = OBool l -> v3 = OBool c ->
          (0 <=? score s)%float = true
          /\ (score s <=? 1)%float = true
          /\ (score s =? 1)%float = g && l && c
          /\ (score s =? 0)%float = negb (g || l || c)).
Proof.
  rewrite search_metric_run.
  destruct (Example_getattr (example fr) "context") as [context|];
    [|discriminate].
  destruct (Example_getattr (example fr) "question") as [question|];
    [|discriminate].
  destruct (Example_getattr (pred fr) "answer") as [answer|]; [|discriminate].
  destruct (judge _ _) as [a|] eqn:Hj; [|discriminate].
  destruct (search_assistant.is_grounded a) as [v1|] eqn:Hg; [|discriminate].
  destruct (py_float float_of_str v1) as [x1|] eqn:H1; [|discriminate].
  destruct (search_assistant.language_match a) as [v2|] eqn:Hl; [|discriminate].
  destruct (py_float float_of_str v2) as [x2|] eqn:H2; [|discriminate].
  destruct (search_assistant.citation_correct a) as [v3|] eqn:Hc;
    [|discriminate].
  destruct (py_float float_of_str v3) as [x3|] eqn:H3; [|discriminate].
  destruct (search_assistant.rationale a) as [r|]; [|discriminate].
  intros [= <- _].
  exists context, question, answer, a, v1, v2, v3, x1, x2, x3.
  repeat (split; [reflexivity || assumption|]).
  cbn [score]. intros g l c -> -> ->.
  cbn [py_float] in H1, H2, H3.
  injection H1 as <-. injection H2 as <-. injection H3 as <-.
  destruct g, l, c; vm_compute; auto.
Qed.

Lemma search_score_counts_criteria_witness :
  exists s,
    search_assistant.llm_judge_metric float_of_str_sample judge_search
      frame_search = (Ok s, frame_search)
    /\ (0 <=? score s)%float = true
    /\ (score s <=? 1)%float = true
    /\ (score s =? 1)%float = false
    /\ (score s =? 0)%float = false.
Proof.
  exists {| score := mean [1; 0; 1]%float; feedback := "Wrong language." |}.
  split; [reflexivity|].
  destruct (search_score_counts_criteria float_of_str_sample judge_search
              frame_search frame_search
              {| score := mean [1; 0; 1]%float;
                 feedback := "Wrong language." |} eq_refl)
    as (context & question & answer & a & v1 & v2 & v3 & x1 & x2 & x3
        & _ & _ & _ & _ & _ & _ & _ & _ & _ & _ & _ & _).
  repeat split; reflexivity.
Defined.

(** X15.  Once the judge of audio_assistant has answered with a language
    consistency, the metric prints its three diagnostic lines (the
    score, the requirements and the template) when that score is below
    0.5 and prints nothing otherwise, whether it then returns a score or
    raises for a criterion that is missing. *)
Theorem audio_metric_diagnostics
  (judge : string -> list (string * pyval)
           -> result audio_assistant.AssessTemplateQuality)
  (fr : frame) (requirements template : pyval)
  (a : audio_assistant.AssessTemplateQuality) (lc : float) :
  Example_getattr (example fr) "requirements" = Ok requirements ->
  Example_getattr (pred fr) "template" = Ok template ->
  judge audio_assistant.judge_lm
    [("requirements", requirements); ("template", template)] = Ok a ->
  audio_assistant.language_consistency_score a = Some lc ->
  stdout (snd (audio_assistant.llm_judge_metric judge fr))
  = (stdout fr ++ diagnostics lc requirements template)%list.
Proof.
  intros Hq Ht Hj Hlc. unfold_metric. rewrite Hq, Ht, Hj, Hlc.
  unfold mlift, diagnostics.
  destruct (lc <? 0.5)%float; cbn [example pred fst snd stdout];
    rewrite ?Hq, ?Ht; cbn [example pred fst snd stdout];
    destruct (audio_assistant.general_score a);
    destruct (audio_assistant.tone_score a);
    destruct (audio_assistant.scenario_alignment_score a);
    destruct (audio_assistant.audience_match_score a);
    destruct (audio_assistant.language_appropriateness_score a);
    destruct (audio_assistant.rationale a);
    cbn [stdout snd]; rewrite <- ?app_assoc, ?app_nil_r; reflexivity.
Qed.

Lemma audio_metric_diagnostics_witness :
  stdout (snd (audio_assistant.llm_judge_metric judge_audio frame_audio))
  = [[PrStr "language_consistency_score: "; PrFloat 0.25%float];
     [PrStr "requirements: "; PrVal (PStr "weekly report")];
     [PrStr "template: "; PrVal (PStr "# Weekly report")]]
  /\ stdout (snd (audio_assistant.llm_judge_metric judge_audio_partial
                    frame_audio)) = [].
Proof.
  split.
  - apply (audio_metric_diagnostics judge_audio frame_audio
             (PStr "weekly report") (PStr "# Weekly report") answer_audio
             0.25%float); reflexivity.
  - apply (audio_metric_diagnostics judge_audio_partial frame_audio
             (PStr "weekly report") (PStr "# Weekly report")
             answer_audio_partial 1%float); reflexivity.
Defined.

(** ** [main] of audio_assistant *)

Lemma machine_eta (m : machine) : {| disk := disk m; trace := trace m |} = m.
Proof. now destruct m. Qed.

Lemma calls_app (t1 t2 : list event) :
  calls (t1 ++ t2) = (calls t1 ++ calls t2)%list.
Proof. apply omap_app. Qed.

(** The loop of [main]: it touches no file and only adds to the trace; the
    program is called on the first inputs, in order, and never on [exit];
    the loop ends well only at an input [exit]. *)
Lemma repl_spec (program : compiled_program) (inputs : list string) :
  forall (m m' : machine) (r : outcome unit),
    repl program inputs m = (r, m') ->
    disk m' = disk m
    /\ (exists rest, trace m' = (trace m ++ rest)%list)
    /\ exists k,
         calls (trace m') = (calls (trace m) ++ take k inputs)%list
         /\ ("exit" ∉ take k inputs)
         /\ (r = Done tt -> inputs !! k = Some "exit").
Proof.
  induction inputs as [|requirements inputs IH]; intros m m' r.
  - simpl. unfold sbind, emit, sfail. intros [= <- <-]. cbn [disk trace].
    split; [reflexivity|]. split; [eauto|]. exists 0.
    rewrite calls_app. simpl. rewrite app_nil_r.
    split; [reflexivity|]. split; [apply not_elem_of_nil | discriminate].
  - cbn [repl]. unfold sbind at 1, emit at 1.
    destruct (String.eqb_spec requirements "exit") as [->|Hne].
    + unfold sret. intros [= <- <-]. cbn [disk trace].
      split; [reflexivity|]. split; [eauto|]. exists 0.
      rewrite calls_app. simpl. rewrite app_nil_r.
      split; [reflexivity|]. split; [apply not_elem_of_nil | reflexivity].
    + unfold sbind, emit, of_result. cbn [disk trace].
      destruct (run_program program requirements) as [prediction|e].
      2:{ intros [= <- <-]. cbn [disk trace]. split; [reflexivity|].
          split; [rewrite <- app_assoc; eauto|]. exists 1.
          rewrite !calls_app. simpl. rewrite take_0, !app_nil_r.
          split; [reflexivity|]. split; [|discriminate].
          apply not_elem_of_cons. split; [congruence | apply not_elem_of_nil]. }
      destruct (Example_getattr prediction "template") as [template|e].
      2:{ intros [= <- <-]. cbn [disk trace]. split; [reflexivity|].
          split; [rewrite <- app_assoc; eauto|]. exists 1.
          rewrite !calls_app. simpl. rewrite take_0, !app_nil_r.
          split; [reflexivity|]. split; [|discriminate].
          apply not_elem_of_cons. split; [congruence | apply not_elem_of_nil]. }
      intros H. apply IH in H. cbn [disk trace] in H.
      destruct H as (Hd & (rest & Hrest) & k & Hk & Hex & Hdone).
      split; [exact Hd|]. split.
      * rewrite Hrest, <- !app_assoc. eauto.
      * exists (S k). rewrite Hk, !calls_app. simpl. rewrite !app_nil_r.
        split; [now rewrite <- app_assoc|]. split; [|exact Hdone].
        apply not_elem_of_cons. split; [congruence | exact Hex].
Qed.

Lemma audio_main_unbound_trainset
  (tp_compile : list Example -> result compiled_program)
  (inputs : list string) (m : machine) :
  files (disk m) !! requirements_path = None ->
  audio_main tp_compile inputs m = (Fail (UnboundLocalError "trainset"), m).
Proof.
  intros H. unfold audio_main, sbind, path_exists. rewrite H.
  rewrite bool_decide_eq_false_2 by (intros [x Hx]; discriminate).
  reflexivity.
Qed.



Lemma pprint_each_spec (messages : list pyval) (m : machine) :
  pprint_each messages m
  = (Done tt,
     {| disk := disk m;
        trace := (trace m
                  ++ map (fun message => PPrinted (PrVal message)) messages)%list |}).
Proof.
  revert m. induction messages as [|message messages IH]; intros m.
  - simpl. unfold sret. now rewrite app_nil_r, machine_eta.
  - simpl. unfold sbind, emit. rewrite IH. cbn [disk trace].
    now rewrite <- app_assoc.
Qed.

Lemma calls_pprinted (messages : list pyval) :
  calls (map (fun message => PPrinted (PrVal message)) messages) = [].
Proof. now induction messages. Qed.

Lemma load_lines_keys (input_keys : list string) (lines : list string) :
  forall acc ts,
    load_lines input_keys lines acc = Ok ts ->
    Forall (fun e => _input_keys e = Some (list_to_set input_keys)) acc ->
    Forall (fun e => _input_keys e = Some (list_to_set input_keys)) ts.
Proof.
  induction lines as [|line lines IH]; intros acc ts.
  - simpl. now intros [= <-].
  - simpl. destruct (load_line input_keys line) as [e|] eqn:E; [|discriminate].
    simpl. intros H Hacc. apply (IH _ _ H).
    apply Forall_app. split; [exact Hacc|]. constructor; [|constructor].
    unfold load_line in E.
    destruct (json_loads line) as [data|]; [|discriminate]. simpl in E.
    destruct (Example_splat data) as [e0|]; [|discriminate]. simpl in E.
    now injection E as <-.
Qed.

(** What [main] does once the file of requirements is there. *)
Lemma audio_main_run
  (tp_compile : list Example -> result compiled_program)
  (inputs : list string) (m : machine) (text : string) :
  files (disk m) !! requirements_path = Some text ->
  audio_main tp_compile inputs m
  = match load_lines ["requirements"] (iter_lines text) [] with
    | Raise e => (Fail (Lib e), m)
    | Ok trainset =>
        let m1 := {| disk := disk m;
                     trace := (trace m ++ [Compiled trainset])%list |} in
        match tp_compile trainset with
        | Raise e => (Fail (Lib e), m1)
        | Ok program =>
            let m2 := {| disk := disk m;
                         trace := (trace m1
                                   ++ [PPrinted (PrStr ("prompt: " ++ hashes 300))])%list |} in
            match last (history program) with
            | None => (Fail IndexError, m2)
            | Some messages =>
                (_ <<- pprint_each messages ;;
                 _ <<- emit (PPrinted (PrStr (hashes 300))) ;;
                 _ <<- run_io (program_save "audio_assistant.json"
                                 (program_state program)) ;;
                 repl program inputs) m2
            end
        end
    end.
Proof.
  intros H. unfold audio_main. unfold sbind at 1, path_exists at 1. rewrite H.
  rewrite bool_decide_eq_true_2 by (eexists; reflexivity).
  unfold sbind at 1. unfold sbind at 1. unfold run_io at 1.
  rewrite (load_trainset_run _ text) by exact H.
  change (default default_input_keys (Some ["requirements"]))
    with ["requirements"].
  destruct (load_lines ["requirements"] (iter_lines text) []) as [ts|e].
  2:{ now rewrite machine_eta. }
  rewrite machine_eta. unfold sret at 1. cbv beta iota. unfold sret at 1.
  unfold sbind at 1. unfold emit at 1. unfold sbind at 1, of_result at 1.
  destruct (tp_compile ts) as [program|e]; [|reflexivity].
  unfold sbind at 1, emit at 1. cbn [disk trace]. unfold sbind at 1.
  destruct (last (history program)) as [messages|]; reflexivity.
Qed.

(** What [main] does after the optimizer, from the messages of the last
    call on. *)
Lemma audio_main_tail (program : compiled_program) (inputs : list string)
  (messages : list pyval) (m m' : machine) (r : outcome unit) :
  (_ <<- pprint_each messages ;;
   _ <<- emit (PPrinted (PrStr (hashes 300))) ;;
   _ <<- run_io (program_save "audio_assistant.json" (program_state program)) ;;
   repl program inputs) m = (r, m') ->
  (exists rest, trace m' = (trace m ++ rest)%list)
  /\ (exists k,
        calls (trace m') = (calls (trace m) ++ take k inputs)%list
        /\ ("exit" ∉ take k inputs)
        /\ (r = Done tt -> inputs !! k = Some "exit"))
  /\ (if bool_decide ("audio_assistant.json" ∈ unwritable (disk m)) then
        r = Fail (Lib (write_error (disk m) "audio_assistant.json"))
        /\ files (disk m') = files (disk m)
      else if encodable (program_state program) then
        files (disk m')
        = <["audio_assistant.json" := program_state program]> (files (disk m))
      else
        r = Fail (Lib (UnicodeEncodeError (program_state program)))
        /\ files (disk m')
           = <["audio_assistant.json" := ""]> (files (disk m))).
Proof.
  unfold sbind at 1. rewrite pprint_each_spec.
  unfold sbind at 1, emit at 1. cbn [disk trace].
  unfold sbind at 1, run_io, program_save, bind, open_w, write.
  cbn [disk trace unwritable files].
  destruct (bool_decide ("audio_assistant.json" ∈ unwritable (disk m))).
  - intros [= <- <-]. cbn [disk trace]. split; [rewrite <- app_assoc; eauto|].
    split; [|auto]. exists 0.
    rewrite !calls_app, calls_pprinted, take_0. simpl.
    split; [now rewrite !app_nil_r|].
    split; [apply not_elem_of_nil | discriminate].
  - cbn [disk trace unwritable files read_error write_error].
    destruct (encodable (program_state program)).
    + cbn [disk trace unwritable files read_error write_error]. intros H.
      apply repl_spec in H. cbn [disk trace files] in H.
      destruct H as (Hd & (rest & Hrest) & k & Hk & Hex & Hdone). split.
      * rewrite Hrest, <- !app_assoc. eauto.
      * split.
        -- exists k. rewrite Hk, !calls_app, calls_pprinted. simpl.
           rewrite !app_nil_r. auto.
        -- rewrite Hd. cbn [files]. rewrite lookup_insert_eq. cbn [default].
           now rewrite insert_insert_eq.
    + intros [= <- <-]. cbn [disk trace files].
      split; [rewrite <- app_assoc; eauto|].
      split; [|auto]. exists 0.
      rewrite !calls_app, calls_pprinted, take_0. simpl.
      split; [now rewrite !app_nil_r|].
      split; [apply not_elem_of_nil | discriminate].
Qed.

(** X17.  When the file of requirements exists, [main] loads it with
    [requirements] as the only input key.  If loading raises, [main] fails
    with that exception, having printed, asked and written nothing;
    otherwise the first thing to be seen of [main] is that it hands the
    loaded trainset to the optimizer, every example of it with exactly the
    input key [requirements]. *)
Theorem audio_main_compiles_loaded
  (tp_compile : list Example -> result compiled_program)
  (inputs : list string) (m : machine) :
  is_Some (files (disk m) !! requirements_path) ->
  match fst (load_trainset requirements_path (Some ["requirements"]) (disk m))
  with
  | Raise e => audio_main tp_compile inputs m = (Fail (Lib e), m)
  | Ok trainset =>
      Forall (fun e => _input_keys e = Some {[ "requirements" ]}) trainset
      /\ exists rest,
           trace (snd (audio_main tp_compile inputs m))
           = (trace m ++ Compiled trainset :: rest)%list
  end.
Proof.
  intros [text Hf]. rewrite (load_trainset_run _ text) by exact Hf.
  rewrite (audio_main_run _ _ _ _ Hf).
  change (default default_input_keys (Some ["requirements"]))
    with ["requirements"]. cbn [fst].
  destruct (load_lines ["requirements"] (iter_lines text) []) as [ts|e] eqn:El;
    [|reflexivity].
  split.
  - pose proof (load_lines_keys _ _ _ _ El (Forall_nil_2 _)) as H.
    eapply Forall_impl; [exact H|]. intros e ->. reflexivity.
  - cbv zeta. destruct (tp_compile ts) as [program|e]; [|cbn; eauto].
    destruct (last (history program)) as [messages|];
      [|cbn; rewrite <- app_assoc; simpl; eauto].
    match goal with
    | |- context [trace (snd ?x)] => destruct x as [r m'] eqn:E
    end.
    apply audio_main_tail in E. destruct E as ((rest & Hrest) & _).
    cbn [snd]. rewrite Hrest. cbn [trace]. rewrite <- !app_assoc. simpl. eauto.
Qed.

Lemma audio_main_compiles_loaded_witness :
  Forall (fun e => _input_keys e = Some {[ "requirements" ]})
    [reloaded ["requirements"] ex_scored]
  /\ exists rest,
       trace (snd (audio_main (fun _ => Ok program_sample)
                     ["weekly report"; "exit"] machine_requirements))
       = (trace machine_requirements
          ++ Compiled [reloaded ["requirements"] ex_scored] :: rest)%list.
Proof.
  apply (audio_main_compiles_loaded (fun _ => Ok program_sample)
           ["weekly report"; "exit"] machine_requirements).
  eexists. reflexivity.
Defined.

(** X18.  [main] ends normally only when [exit] was typed; the file of
    requirements was then there and loaded, the optimizer returned a
    program, and the state of that program has been written to
    [audio_assistant.json], the only file that differs from before. *)
Theorem audio_main_done
  (tp_compile : list Example -> result compiled_program)
  (inputs : list string) (m m' : machine) :
  audio_main tp_compile inputs m = (Done tt, m') ->
  "exit" ∈ inputs
  /\ exists trainset program,
       fst (load_trainset requirements_path (Some ["requirements"]) (disk m))
       = Ok trainset
       /\ tp_compile trainset = Ok program
       /\ files (disk m')
          = <["audio_assistant.json" := program_state program]> (files (disk m)).
Proof.
  destruct (files (disk m) !! requirements_path) as [text|] eqn:Hf.
  2:{ rewrite audio_main_unbound_trainset by exact Hf. discriminate. }
  rewrite (audio_main_run _ _ _ _ Hf).
  rewrite (load_trainset_run _ text) by exact Hf.
  change (default default_input_keys (Some ["requirements"]))
    with ["requirements"]. cbn [fst].
  destruct (load_lines ["requirements"] (iter_lines text) []) as [ts|e];
    [|discriminate].
  cbv zeta. destruct (tp_compile ts) as [program|e] eqn:Et; [|discriminate].
  destruct (last (history program)) as [messages|]; [|discriminate].
  intros H. apply audio_main_tail in H. cbn [disk trace] in H.
  destruct H as (_ & (k & _ & _ & Hk) & Hsave). split.
  - eapply list_elem_of_lookup_2. now apply Hk.
  - exists ts, program. split; [reflexivity|]. split; [exact Et|].
    destruct (bool_decide ("audio_assistant.json" ∈ unwritable (disk m)));
      [destruct Hsave; discriminate|].
    destruct (encodable (program_state program));
      [exact Hsave | destruct Hsave; discriminate].
Qed.

Lemma audio_main_done_witness :
  exists m',
    audio_main (fun _ => Ok program_sample) ["weekly report"; "exit"]
      machine_requirements = (Done tt, m')
    /\ "exit" ∈ ["weekly report"; "exit"]
    /\ files (disk m') !! "audio_assistant.json" = Some "{}".
Proof.
  eexists. split; [vm_compute; reflexivity|].
  destruct (audio_main_done (fun _ => Ok program_sample)
              ["weekly report"; "exit"] machine_requirements
              (snd (audio_main (fun _ => Ok program_sample)
                      ["weekly report"; "exit"] machine_requirements)))
    as (Hex & ts & program & _ & Hp & Hfiles); [vm_compute; reflexivity|].
  split; [exact Hex|]. vm_compute. reflexivity.
Defined.

(** X19.  Whatever happens, [main] calls the compiled program only on
    what was typed, in the order it was typed, and never on [exit] nor on
    anything typed after it. *)
Theorem audio_main_calls
  (tp_compile : list Example -> result compiled_program)
  (inputs : list string) (m m' : machine) (r : outcome unit) :
  audio_main tp_compile inputs m = (r, m') ->
  exists k,
    calls (trace m') = (calls (trace m) ++ take k inputs)%list
    /\ "exit" ∉ take k inputs.
Proof.
  assert (Hstop : forall m0 : machine,
             calls (trace m0) = calls (trace m) ->
             exists k,
               calls (trace m0) = (calls (trace m) ++ take k inputs)%list
               /\ "exit" ∉ take k inputs).
  { intros m0 H0. exists 0. rewrite take_0, app_nil_r.
    split; [exact H0 | apply not_elem_of_nil]. }
  destruct (files (disk m) !! requirements_path) as [text|] eqn:Hf.
  2:{ rewrite audio_main_unbound_trainset by exact Hf.
      intros [= <- <-]. now apply Hstop. }
  rewrite (audio_main_run _ _ _ _ Hf).
  destruct (load_lines ["requirements"] (iter_lines text) []) as [ts|e].
  2:{ intros [= <- <-]. now apply Hstop. }
  cbv zeta. destruct (tp_compile ts) as [program|e].
  2:{ intros [= <- <-]. apply Hstop. cbn [trace]. rewrite calls_app. simpl.
      now rewrite app_nil_r. }
  destruct (last (history program)) as [messages|].
  2:{ intros [= <- <-]. apply Hstop. cbn [trace]. rewrite !calls_app. simpl.
      now rewrite !app_nil_r. }
  intros H. apply audio_main_tail in H. cbn [disk trace] in H.
  destruct H as (_ & (k & Hk & Hex & _) & _). exists k.
  rewrite Hk, !calls_app. simpl. rewrite !app_nil_r. auto.
Qed.

Lemma audio_main_calls_witness :
  exists k,
    calls (trace (snd (audio_main (fun _ => Ok program_sample)
                         ["weekly report"; "exit"; "later"]
                         machine_requirements)))
    = (calls (trace machine_requirements)
       ++ take k ["weekly report"; "exit"; "later"])%list
    /\ "exit" ∉ take k ["weekly report"; "exit"; "later"].
Proof.
  apply (audio_main_calls (fun _ => Ok program_sample)
           ["weekly report"; "exit"; "later"] machine_requirements
           (snd (audio_main (fun _ => Ok program_sample)
                   ["weekly report"; "exit"; "later"] machine_requirements))
           (Done tt)).
  vm_compute. reflexivity.
Defined.

(** ** The loop of [main] *)

Lemma repl_rounds (program : compiled_program) (pre : list string) :
  forall (templates : list pyval) (rest : list string) (m : machine),
    "exit" ∉ pre ->
    Forall2 (answers program) pre templates ->
    repl program (pre ++ rest) m
    = repl program rest
        {| disk := disk m;
           trace := (trace m ++ rounds pre templates)%list |}.
Proof.
  induction pre as [|requirements pre IH]; intros templates rest m Hex HF.
  - inversion HF; subst. unfold rounds. simpl.
    now rewrite app_nil_r, machine_eta.
  - inversion HF as [|? template ? templates' (prediction & Hr & Ht) HF']; subst.
    apply not_elem_of_cons in Hex as [Hne Hex].
    change ((requirements :: pre) ++ rest)%list
      with (requirements :: (pre ++ rest))%list.
    cbn [repl]. unfold sbind at 1, emit at 1.
    destruct (String.eqb_spec requirements "exit") as [E|_]; [congruence|].
    unfold sbind at 1, emit at 1. cbn [disk trace].
    unfold sbind at 1, of_result at 1. rewrite Hr.
    unfold sbind at 1, of_result at 1. rewrite Ht.
    unfold sbind at 1, emit at 1. cbn [disk trace].
    rewrite (IH templates' rest _ Hex HF'). cbn [disk trace].
    unfold rounds. cbn [zip_with List.concat round].
    do 2 f_equal. rewrite <- !app_assoc. reflexivity.
Qed.

(** X20.  While the program answers, the loop of [main] asks for one
    input at a time and, for each input before the first [exit], calls the
    program on it and prints the template of its answer; at [exit] it ends
    normally, having asked once more, and what was typed after [exit]
    plays no part. *)
Theorem repl_until_exit (program : compiled_program)
  (pre post : list string) (templates : list pyval) (m : machine) :
  "exit" ∉ pre ->
  Forall2 (answers program) pre templates ->
  repl program (pre ++ "exit" :: post) m
  = (Done tt,
     {| disk := disk m;
        trace := (trace m ++ rounds pre templates
                  ++ [Asked "Enter your requirements: "])%list |}).
Proof.
  intros Hex HF. rewrite (repl_rounds _ _ templates) by assumption.
  cbn [repl]. unfold sbind, emit, sret. cbn [disk trace String.eqb].
  change ("exit" =? "exit")%string with true. cbv iota.
  now rewrite <- app_assoc.
Qed.

Lemma repl_until_exit_witness :
  repl program_sample ["weekly report"; "exit"; "later"] machine_empty
  = (Done tt,
     {| disk := fs_empty;
        trace := [Asked "Enter your requirements: "; Called "weekly report";
                  PPrinted (PrVal (PStr "# weekly report"));
                  Asked "Enter your requirements: "] |}).
Proof.
  apply (repl_until_exit program_sample ["weekly report"] ["later"]
           [PStr "# weekly report"] machine_empty).
  - apply not_elem_of_cons. split; [discriminate | apply not_elem_of_nil].
  - constructor; [|constructor]. eexists. split; reflexivity.
Defined.

(** X21.  When the input ends before [exit] is typed, the loop of [main]
    has answered every input, asks once more and fails with
    [EOFError]. *)
Theorem repl_end_of_input (program : compiled_program)
  (inputs : list string) (templates : list pyval) (m : machine) :
  "exit" ∉ inputs ->
  Forall2 (answers program) inputs templates ->
  repl program inputs m
  = (Fail EOFError,
     {| disk := disk m;
        trace := (trace m ++ rounds inputs templates
                  ++ [Asked "Enter your requirements: "])%list |}).
Proof.
  intros Hex HF. rewrite <- (app_nil_r inputs) at 1.
  rewrite (repl_rounds _ _ templates) by assumption.
  cbn [repl]. unfold sbind, emit, sfail. cbn [disk trace].
  now rewrite <- app_assoc.
Qed.

Lemma repl_end_of_input_witness :
  repl program_sample ["weekly report"] machine_empty
  = (Fail EOFError,
     {| disk := fs_empty;
        trace := [Asked "Enter your requirements: "; Called "weekly report";
                  PPrinted (PrVal (PStr "# weekly report"));
                  Asked "Enter your requirements: "] |}).
Proof.
  apply (repl_end_of_input program_sample ["weekly report"]
           [PStr "# weekly report"] machine_empty).
  - apply not_elem_of_cons. split; [discriminate | apply not_elem_of_nil].
  - constructor; [|constructor]. eexists. split; reflexivity.
Defined.

(** ** More on the trainset store *)




(** X23.  When the file of the trainset exists, the search script takes
    the trainset from it and does nothing else: it reads no environment
    variable, searches nothing and writes nothing, whatever the queries;
    and when the file does not load, the script fails with the exception of
    [load_trainset] instead of building the trainset again. *)
Theorem search_trainset_uses_file (sv : search_service)
  (queries : list string) (m : machine) :
  is_Some (files (disk m) !! trainset_path) ->
  search_trainset sv queries m
  = (match fst (load_trainset trainset_path None (disk m)) with
     | Ok trainset => Done trainset
     | Raise e => Fail (Lib e)
     end, m).
Proof.
  intros [text Hf]. unfold search_trainset, sbind, path_exists. rewrite Hf.
  rewrite bool_decide_eq_true_2 by (eexists; reflexivity).
  unfold run_io. rewrite (load_trainset_run _ text) by exact Hf. cbn [fst].
  destruct (load_lines _ _ _); now rewrite machine_eta.
Qed.

Lemma search_trainset_uses_file_witness :
  search_trainset service_down ["what is dspy"]
    {| disk := one_file trainset_path text_bad_second; trace := [] |}
  = (Fail (Lib (JSONDecodeError "Expecting value"
                  ("oops" ++ String LF "") 0)),
     {| disk := one_file trainset_path text_bad_second; trace := [] |}).
Proof.
  apply (search_trainset_uses_file service_down ["what is dspy"]
           {| disk := one_file trainset_path text_bad_second; trace := [] |}).
  eexists. reflexivity.
Defined.

(** ** A criterion that is not a number *)

Lemma add_nan_r (x : float) : (x + nan)%float = nan.
Proof.
  apply Prim2SF_inj. rewrite add_spec. change (Prim2SF nan) with S754_nan.
  unfold SF64add, SFadd. destruct (Prim2SF x) as [sg| sg | |sg mx ex];
    try reflexivity; destruct sg; reflexivity.
Qed.

Lemma add_nan_l (y : float) : (nan + y)%float = nan.
Proof.
  apply Prim2SF_inj. rewrite add_spec. change (Prim2SF nan) with S754_nan.
  reflexivity.
Qed.

Lemma div_nan_l (y : float) : (nan / y)%float = nan.
Proof.
  apply Prim2SF_inj. rewrite div_spec. change (Prim2SF nan) with S754_nan.
  reflexivity.
Qed.

(** X24.  The metric of audio_assistant checks no criterion for being a
    number: when the judge answers with every criterion and one of them
    is NaN, the metric returns the score NaN without raising. *)
Theorem audio_score_nan
  (judge : string -> list (string * pyval)
           -> result audio_assistant.AssessTemplateQuality)
  (fr : frame) (requirements template : pyval)
  (a : audio_assistant.AssessTemplateQuality)
  (g t s au lc la : float) (r : string) :
  Example_getattr (example fr) "requirements" = Ok requirements ->
  Example_getattr (pred fr) "template" = Ok template ->
  judge audio_assistant.judge_lm
    [("requirements", requirements); ("template", template)] = Ok a ->
  audio_assistant.general_score a = Some g ->
  audio_assistant.tone_score a = Some t ->
  audio_assistant.scenario_alignment_score a = Some s ->
  audio_assistant.audience_match_score a = Some au ->
  audio_assistant.language_consistency_score a = Some lc ->
  audio_assistant.language_appropriateness_score a = Some la ->
  audio_assistant.rationale a = Some r ->
  nan ∈ [g; t; s; au; lc; la] ->
  fst (audio_assistant.llm_judge_metric judge fr)
  = Ok {| score := nan; feedback := r |}.
Proof.
  intros Hq Ht Hj Hg Htn Hs Hau Hlc Hla Hr Hnan.
  assert (Hscore : ((g + t + s + au + lc + la) / 6)%float = nan).
  { rewrite !elem_of_cons in Hnan.
    destruct Hnan as [<-|[<-|[<-|[<-|[<-|[<-|Hnil]]]]]];
      [.. | now apply elem_of_nil in Hnil];
      rewrite ?add_nan_r, ?add_nan_l; apply div_nan_l. }
  unfold_metric. rewrite Hq, Ht, Hj, Hlc, Hg, Htn, Hs, Hau, Hla, Hr.
  unfold mlift. destruct (lc <? 0.5)%float; cbn [example pred];
    rewrite ?Hq, ?Ht; cbn [fst]; now rewrite Hscore.
Qed.

Lemma audio_score_nan_witness :
  fst (audio_assistant.llm_judge_metric judge_audio_nan frame_audio)
  = Ok {| score := nan; feedback := "No tone." |}.
Proof.
  apply (audio_score_nan judge_audio_nan frame_audio (PStr "weekly report")
           (PStr "# Weekly report") answer_audio_nan 1 nan 1 0.5 0.25 0.75
           "No tone.")%float; try reflexivity.
  apply elem_of_cons. right. apply elem_of_cons. now left.
Defined.

(** ** [dump_prompt] *)

(** X25.  [dump_prompt] never returns the messages: whatever the history
    of calls, it prints its first line and then raises, [IndexError] when
    the history is empty and [TypeError] otherwise, so that the messages
    and the closing line are never printed. *)
Theorem dump_prompt_never_returns (history : list (list pyval)) (m : machine) :
  exists e,
    dump_prompt history m
    = (Fail e,
       {| disk := disk m;
          trace := (trace m
                    ++ [PPrinted (PrStr ("prompt: " ++ hashes 300))])%list |})
    /\ (history = [] -> e = IndexError)
    /\ (history <> [] -> exists msg, e = Lib (TypeError msg)).
Proof.
  unfold dump_prompt, sbind, emit, of_result, sfail, sret. cbn [disk trace].
  destruct (last history) as [messages|] eqn:E.
  - eexists. split; [reflexivity|]. split; [|eauto].
    intros ->. discriminate E.
  - eexists. split; [reflexivity|]. split; [reflexivity|].
    intros Hne. apply last_None in E. contradiction.
Qed.
